(** * InsightAI dashboard: chart selection, data transforms and render dispatch

    A shallow embedding of the front-end logic of the InsightAI dashboard
    (React / TypeScript) and the proofs of its specified properties.

    - [Js]: the fragment of the JavaScript runtime the components rely on
      (numbers, record fields, objects, [Number(..)], [String(..)],
      [toFixed], [Array.prototype.sort]).
    - [Api]: the wire types of [services/api.ts].
    - [ChartTypeSelector], [Dashboard], [ChartRenderer], [DataTable]: one
      module per component, each function translated from its source.

    JavaScript numbers are IEEE 754 doubles. They are modelled by the
    primitive binary64 floats, so [+], [-], [*], [/] round as they do in the
    browser, [NaN], the infinities and [-0] are values, and [<], [<=], [===]
    are the IEEE comparisons. Conversions that are built into the runtime and
    not part of this repository (string to number, number to string, locale
    formatting, JSON parsing) are the fields of the class [JsRuntime]. *)

From Stdlib Require Import ZArith Lia Ascii String Floats.
From stdpp Require Import base list sets strings pretty numbers sorting.

(** ** The JavaScript fragment *)

Module Js.

(** Sameness of two doubles as values: [NaN] is the same as itself, and [0]
    is not the same as [-0]. (The comparison [===] of the language is
    [PrimFloat.eqb].) *)
#[global] Instance float_eq_dec : EqDecision float.
Proof.
  intros x y. destruct (PrimFloat.Leibniz.eqb x y) eqn:Heq.
  - left. by apply FloatAxioms.Leibniz.eqb_spec.
  - right. intros Hxy. apply FloatAxioms.Leibniz.eqb_spec in Hxy. congruence.
Defined.

(** The double nearest to an integer (ties to even), as a numeric literal
    denotes it. *)
Definition of_Z (z : Z) : float :=
  SF2Prim (binary_normalize prec emax z 0 false).

(** A scalar held by a record field; [VUndefined] is what reading a missing
    field yields. *)
Inductive JsVal : Type :=
| VUndefined
| VNull
| VBool (b : bool)
| VNum (n : float)
| VStr (s : string).

#[global] Instance JsVal_eq_dec : EqDecision JsVal.
Proof. solve_decision. Defined.

(** An object with string keys: its fields in the order they were added. *)
Definition Obj : Type := list (string * JsVal).

Fixpoint obj_lookup (k : string) (o : Obj) : option JsVal :=
  match o with
  | [] => None
  | (k', v) :: o' => if decide (k = k') then Some v else obj_lookup k o'
  end.

(** [o[k]] *)
Definition get (o : Obj) (k : string) : JsVal :=
  default VUndefined (obj_lookup k o).

(** [o[k] = v]: an existing key keeps its place, a new key is added last. *)
Fixpoint obj_set (k : string) (v : JsVal) (o : Obj) : Obj :=
  match o with
  | [] => [(k, v)]
  | (k', v') :: o' =>
      if decide (k = k') then (k', v) :: o' else (k', v') :: obj_set k v o'
  end.

(** [{...o, k1: v1, ..., kn: vn}] *)
Definition obj_extend (o : Obj) (fields : list (string * JsVal)) : Obj :=
  foldl (fun acc kv => obj_set kv.1 kv.2 acc) o fields.

(** The value of a string of decimal digits. *)
Fixpoint decimal (acc : N) (s : string) : option N :=
  match s with
  | EmptyString => Some acc
  | String c s' =>
      let n := N_of_ascii c in
      if decide (48 <= n <= 57)%N then decimal (10 * acc + (n - 48)) s' else None
  end.

(** The array index that a key is, if it is one: the key is the decimal
    numeral, without leading zeros, of an integer from 0 to 2^32 - 2. *)
Definition array_index (k : string) : option N :=
  match k with
  | EmptyString => None
  | String "0" EmptyString => Some 0%N
  | String "0" _ => None
  | _ =>
      match decimal 0 k with
      | Some n => if decide (n <= 4294967294)%N then Some n else None
      | None => None
      end
  end.

(** The order of two keys that are array indices. *)
Definition index_le (a b : N * string) : Prop := (a.1 <= b.1)%N.

#[global] Instance index_le_dec : RelDecision index_le.
Proof. intros a b. unfold index_le. apply _. Defined.

(** [Object.keys(o)]: the keys that are array indices come first, in
    ascending numeric order, then the other keys in the order they were
    added. *)
Definition Object_keys (o : Obj) : list string :=
  (merge_sort index_le
     (omap (fun k => (fun n => (n, k)) <$> array_index k) o.*1)).*2
  ++ filter (fun k => array_index k = None) o.*1.

(** [s || d] on an optional string: [undefined] and the empty string are
    falsy. *)
Definition str_or (s : option string) (d : string) : string :=
  match s with
  | Some EmptyString | None => d
  | Some s' => s'
  end.

(** [v ?? d] *)
Definition nullish_or (v : JsVal) (d : JsVal) : JsVal :=
  match v with
  | VUndefined | VNull => d
  | _ => v
  end.

(** [n || d] on numbers: [NaN], [0] and [-0] are the falsy numbers. *)
Definition num_or (n d : float) : float :=
  if is_nan n || (n =? 0)%float then d else n.

(** [s.replace(/_/g, ' ')] *)
Fixpoint replace_underscores (s : string) : string :=
  match s with
  | EmptyString => EmptyString
  | String c s' =>
      String (if Ascii.eqb c "_"%char then " "%char else c) (replace_underscores s')
  end.

(** What [JSON.parse] returns: an array of records, a single record, or
    anything else ([null], a number, a string, a boolean, an array that
    holds something that is not a record of scalars). The data model of the
    dashboard is the first two. *)
Inductive Parsed : Type :=
| PArray (rows : list Obj)
| PRecord (row : Obj)
| POther.

(** The built-ins of the runtime that the components call. *)
Class JsRuntime : Type := {
  (** [StringToNumber]: [NaN] for a string that is not a numeric literal. *)
  StringToNumber : string -> float;
  (** [Number::toString], as used by [String(n)] and by [toFixed] for
      magnitudes of [10^21] and above. *)
  NumberToString : float -> string;
  (** [n.toLocaleString('en-US', { maximumFractionDigits: 2 })] *)
  NumberToLocaleString : float -> string;
  (** [JSON.parse]; [None] when it throws. *)
  JSON_parse : string -> option Parsed
}.

Section conversions.
Context {rt : JsRuntime}.

(** [Number(v)] *)
Definition ToNumber (v : JsVal) : float :=
  match v with
  | VUndefined => nan
  | VNull => 0
  | VBool b => if b then 1 else 0
  | VNum n => n
  | VStr s => StringToNumber s
  end.

(** [Number(v) || 0] *)
Definition number_or_0 (v : JsVal) : float := num_or (ToNumber v) 0.

(** [String(v)] *)
Definition ToString (v : JsVal) : string :=
  match v with
  | VUndefined => "undefined"
  | VNull => "null"
  | VBool b => if b then "true" else "false"
  | VNum n => NumberToString n
  | VStr s => s
  end.

(** For a finite [x], the integer [n] for which [n / scale - |x|] is closest
    to zero, the larger one on a tie. The double [x] is [m * 2^e] exactly. *)
Definition round_half_up (x : float) (scale : Z) : Z :=
  match Prim2SF x with
  | S754_finite _ m e =>
      match e with
      | Z.neg p => (2 * (Z.pos m * scale) + 2 ^ Z.pos p) / (2 * 2 ^ Z.pos p)
      | _ => Z.pos m * 2 ^ e * scale
      end
  | _ => 0
  end.

Fixpoint zeros (n : nat) : string :=
  match n with
  | O => ""
  | S n' => String "0"%char (zeros n')
  end.

(** [Number.prototype.toFixed(fractionDigits)] *)
Definition toFixed (fractionDigits : nat) (x : float) : string :=
  if is_nan x || is_infinity x then NumberToString x
  else
    let s := if (x <? 0)%float then "-" else "" in
    let x := if (x <? 0)%float then (- x)%float else x in
    if (1e21 <=? x)%float then s +:+ NumberToString x
    else
      let n := round_half_up x (10 ^ Z.of_nat fractionDigits) in
      let m := pretty n in
      match fractionDigits with
      | O => s +:+ m
      | S _ =>
          let m := zeros (S fractionDigits - String.length m) +:+ m in
          let k := String.length m in
          s +:+ substring 0 (k - fractionDigits) m +:+ "."
            +:+ substring (k - fractionDigits) fractionDigits m
      end.

End conversions.

(** [Array.prototype.sort(compareFn)]: the sort is stable, and [b] is moved
    before [a] exactly when [compareFn a b > 0] (a comparator result of [NaN]
    counts as 0). For a comparator that orders its arguments consistently
    the result does not depend on the engine's algorithm; it is computed
    here by stable insertion. *)
Section sort.
Context {A : Type} (compareFn : A -> A -> float).

Fixpoint sort_insert (x : A) (l : list A) : list A :=
  match l with
  | [] => [x]
  | y :: l' =>
      if (0 <? compareFn x y)%float then y :: sort_insert x l' else x :: l
  end.

Fixpoint Array_sort (l : list A) : list A :=
  match l with
  | [] => []
  | x :: l' => sort_insert x (Array_sort l')
  end.

(** The comparator does not ask for [b] to be moved before [a]. *)
Definition no_swap (a b : A) : Prop := (0 <? compareFn a b)%float = false.

End sort.

End Js.

(** ** The order of the doubles

    Where a number stands among the doubles: the infinities at the ends,
    both zeros together in the middle, and a finite number by its sign, then
    its exponent, then its mantissa. *)

Module FloatOrder.

Definition rank (x : spec_float) : Z * Z * Z :=
  match x with
  | S754_nan => (0, 0, 0)%Z
  | S754_infinity true => (-2, 0, 0)%Z
  | S754_infinity false => (2, 0, 0)%Z
  | S754_zero _ => (0, 0, 0)%Z
  | S754_finite false m e => (1, e, Z.pos m)%Z
  | S754_finite true m e => (-1, - e, Z.neg m)%Z
  end.

Definition rank_lt (a b : Z * Z * Z) : Prop :=
  (a.1.1 < b.1.1 ∨ a.1.1 = b.1.1 ∧ (a.1.2 < b.1.2 ∨ a.1.2 = b.1.2 ∧ a.2 < b.2))%Z.

Definition rank_compare (a b : Z * Z * Z) : comparison :=
  match (a.1.1 ?= b.1.1)%Z with
  | Eq => match (a.1.2 ?= b.1.2)%Z with
          | Eq => (a.2 ?= b.2)%Z
          | c => c
          end
  | c => c
  end.

End FloatOrder.

(** ** Wire types ([services/api.ts]) *)

Module Api.
Import Js.

(** The chart type tags: [VisualizationConfig['type']]. The selector's
    [ChartType] is the same union without [error]; the dashboard casts one to
    the other, so a single type stands for both. *)
Inductive ChartType : Type :=
| bar | line | pie | area | scatter | radar | composed | table | error
| stacked_bar | stacked_column | clustered_bar | clustered_column
| stacked_100 | waterfall | funnel.

#[global] Instance ChartType_eq_dec : EqDecision ChartType.
Proof. solve_decision. Defined.

(** [yKey?: string | string[]] *)
Inductive YKey : Type :=
| YKeyOne (key : string)
| YKeyMany (keys : list string).

(** [data], as the renderer tells its shapes apart: a falsy value that is
    not a string ([null], [undefined]), a string, an array of records, or
    any other value (a record that is not wrapped in an array, say). *)
Inductive Data : Type :=
| DataMissing
| DataString (s : string)
| DataArray (rows : list Obj)
| DataOther.

Record VisualizationConfig : Type := {
  type : ChartType;
  title : string;
  xKey : option string;
  yKey : option YKey;
  data : Data;
  message : option string;
  recommended_charts : option (list ChartType)
}.

Record AnalyzeResponse : Type := {
  question : string;
  sql_query : string;
  results : string;
  visualization_config : option VisualizationConfig;
  steps : list string
}.

End Api.

(** ** ChartTypeSelector *)

Module ChartTypeSelector.
Import Js Api.

Record ChartOption : Type := {
  value : ChartType;
  label : string;
  icon : string
}.

#[global] Instance ChartOption_eq_dec : EqDecision ChartOption.
Proof. solve_decision. Defined.

Definition CHART_OPTIONS : list ChartOption := [
  {| value := bar; label := "Bar"; icon := "📊" |};
  {| value := line; label := "Line"; icon := "📈" |};
  {| value := pie; label := "Pie"; icon := "🥧" |};
  {| value := area; label := "Area"; icon := "📉" |};
  {| value := scatter; label := "Scatter"; icon := "⭐" |};
  {| value := radar; label := "Radar"; icon := "🕸️" |};
  {| value := composed; label := "Combo"; icon := "📊📈" |};
  {| value := stacked_column; label := "Stacked"; icon := "📊▲" |};
  {| value := stacked_bar; label := "Stacked Bar"; icon := "📊◀" |};
  {| value := clustered_column; label := "Clustered"; icon := "📊📊" |};
  {| value := clustered_bar; label := "Clustered Bar"; icon := "▐▐" |};
  {| value := stacked_100; label := "100% Stacked"; icon := "📊%" |};
  {| value := waterfall; label := "Waterfall"; icon := "🌊" |};
  {| value := funnel; label := "Funnel"; icon := "🔻" |};
  {| value := table; label := "Table"; icon := "📋" |}
].

Section selector.
Context (recommendedTypes : list ChartType).

(** [recommendedTypes.includes(type)] *)
Definition isRecommended (type : ChartType) : bool :=
  bool_decide (type ∈ recommendedTypes).

(** [recommendedTypes[0] === type] *)
Definition isAIPick (type : ChartType) : bool :=
  bool_decide (recommendedTypes !! 0%nat = Some type).

(** The comparator of [sortedOptions]: [aRec - bRec]. *)
Definition compareOptions (a b : ChartOption) : float :=
  let aRec := (if isRecommended (value a) then 0 else 1)%float in
  let bRec := (if isRecommended (value b) then 0 else 1)%float in
  (aRec - bRec)%float.

(** [[...options].sort(compareOptions)] *)
Definition sortOptions (options : list ChartOption) : list ChartOption :=
  Array_sort compareOptions options.

(** Sort options: recommended first, then others. *)
Definition sortedOptions : list ChartOption := sortOptions CHART_OPTIONS.

End selector.

End ChartTypeSelector.

(** ** Dashboard *)

Module Dashboard.
Import Js Api.

(** The component's five state cells. *)
Record State : Type := {
  isLoading : bool;
  steps : list string;
  result : option AnalyzeResponse;
  error : option string;
  selectedChartType : option ChartType
}.

Definition initial : State :=
  {| isLoading := false; steps := []; result := None; error := None;
     selectedChartType := None |}.

(** [handleSubmit] up to its [await]. *)
Definition handleSubmit_begin (question : string) (s : State) : State :=
  {| isLoading := true;
     steps := ["🚀 Sending question to InsightAI..."];
     result := None;
     error := None;
     selectedChartType := None (* Reset to AI default on new query *) |}.

(** [response.visualization_config?.type as ChartType || 'bar'] *)
Definition defaultChartType (response : AnalyzeResponse) : ChartType :=
  match visualization_config response with
  | Some config => type config
  | None => bar
  end.

(** [handleSubmit] after [analyzeQuestion] resolved. *)
Definition handleSubmit_resolved (response : AnalyzeResponse) (s : State) : State :=
  {| isLoading := false;
     steps := Api.steps response;
     result := Some response;
     error := error s;
     selectedChartType := Some (defaultChartType response) |}.

(** [handleSubmit] after [analyzeQuestion] rejected; [message] is
    [err.message] when [err] is an [Error]. *)
Definition handleSubmit_rejected (message : option string) (s : State) : State :=
  let errorMessage := default "An error occurred" message in
  {| isLoading := false;
     steps := steps s ++ ["❌ Error: " +:+ errorMessage];
     result := result s;
     error := Some errorMessage;
     selectedChartType := selectedChartType s |}.

Definition handleChartTypeChange (type : ChartType) (s : State) : State :=
  {| isLoading := isLoading s;
     steps := steps s;
     result := result s;
     error := error s;
     selectedChartType := Some type |}.

(** What can happen to the component. *)
Inductive Event : Type :=
| Submit (question : string)
| Resolved (response : AnalyzeResponse)
| Rejected (message : option string)
| ChartTypeChange (type : ChartType).

Definition step (s : State) (e : Event) : State :=
  match e with
  | Submit question => handleSubmit_begin question s
  | Resolved response => handleSubmit_resolved response s
  | Rejected message => handleSubmit_rejected message s
  | ChartTypeChange type => handleChartTypeChange type s
  end.

Definition run (s : State) (events : list Event) : State :=
  foldl step s events.

(** Get the effective visualization config with user-selected chart type. *)
Definition getEffectiveConfig (s : State) : option VisualizationConfig :=
  match result s with
  | None => None
  | Some response =>
      match visualization_config response with
      | None => None
      | Some config =>
          Some {| type := default (type config) (selectedChartType s);
                  title := title config;
                  xKey := xKey config;
                  yKey := yKey config;
                  data := data config;
                  message := message config;
                  recommended_charts := recommended_charts config |}
      end
  end.

(** [result?.visualization_config?.type] *)
Definition aiRecommendedType (s : State) : option ChartType :=
  match result s with
  | None => None
  | Some response => type <$> visualization_config response
  end.

(** [(recommended_charts || [aiRecommendedType]).filter(Boolean)] *)
Definition recommendedCharts (s : State) : list ChartType :=
  match result s with
  | None => []
  | Some response =>
      match visualization_config response with
      | None => []
      | Some config => default [type config] (recommended_charts config)
      end
  end.

(** The [selectedType] handed to the selector:
    [selectedChartType || aiRecommendedType]. *)
Definition selectorType (s : State) : option ChartType :=
  match selectedChartType s with
  | Some t => Some t
  | None => aiRecommendedType s
  end.

End Dashboard.

(** ** ChartRenderer *)

Module ChartRenderer.
Import Js Api.

Definition COLORS : list string := [
  "#667eea"; "#764ba2"; "#10b981"; "#f59e0b";
  "#ef4444"; "#3b82f6"; "#8b5cf6"; "#ec4899"
].

(** [COLORS[index % COLORS.length]] *)
Definition color (index : nat) : string :=
  default "" (COLORS !! (index mod length COLORS)%nat).

(** What the renderer hands to the charting library. Sizes, margins, strokes,
    tooltips and legends are fixed presentation attributes and are left out;
    data, keys, series and colours are kept. *)

Inductive Layout : Type := horizontal | vertical.

(** A [<Bar>], [<Line>], [<Area>] or [<Radar>] element. *)
Record Series : Type := {
  dataKey : option string;
  seriesName : option string;
  seriesColor : option string;
  stackId : option string;
  yAxisId : option string
}.

(** An element of the funnel's derived data. *)
Record FunnelEntry : Type := {
  name : string;
  value : float;
  fill : string
}.

Inductive Chart : Type :=
| BarChart (data : list Obj) (layout : Layout) (categoryKey : option string)
    (bars : list Series) (cells : list JsVal)
| LineChart (data : list Obj) (categoryKey : option string) (lines : list Series)
| PieChart (data : list Obj) (valueKey nameKey : string) (cells : list string)
| AreaChart (data : list Obj) (categoryKey : option string) (areas : list Series)
| ScatterChart (data : list Obj) (xAxisKey yAxisKey : string)
    (points : Series) (cells : list string)
| RadarChart (data : list Obj) (angleKey : option string) (radars : list Series)
| ComposedChart (data : list Obj) (categoryKey : option string)
    (leftAxisLabel : string) (rightAxisLabel : option string)
    (primary : Series) (secondary : list Series) (hint : bool)
| FunnelChart (data : list FunnelEntry) (cells : list string)
| Table (columns : list string) (rows : list (list string))
| NoData.

(** The component's result. [Unmodelled] stands for what the component does
    with a string payload that parses to something other than records (it
    wraps the value in an array and hands it to the chart, which for some
    chart types throws): that behaviour is outside this model. *)
Inductive Element : Type :=
| Nothing
| ErrorCard (title : string) (message : option string)
| RawText (title : string) (text : string)
| ChartCard (title : string) (chart : Chart)
| Unmodelled.

#[global] Instance Layout_eq_dec : EqDecision Layout.
Proof. solve_decision. Defined.
#[global] Instance Series_eq_dec : EqDecision Series.
Proof. solve_decision. Defined.
#[global] Instance FunnelEntry_eq_dec : EqDecision FunnelEntry.
Proof. solve_decision. Defined.
#[global] Instance Chart_eq_dec : EqDecision Chart.
Proof. solve_decision. Defined.
#[global] Instance Element_eq_dec : EqDecision Element.
Proof. solve_decision. Defined.

(** [l.join(sep)] *)
Fixpoint join (sep : string) (l : list string) : string :=
  match l with
  | [] => ""
  | [s] => s
  | s :: l' => s +:+ sep +:+ join sep l'
  end.

Section renderer.
Context {rt : JsRuntime}.

(** *** Axis tick formatters of the composed chart *)

(** Left Y-axis (primary metric). *)
Definition tickFormatter_left (value : float) : string :=
  if (1000000 <=? value)%float then toFixed 1 (value / 1000000)%float +:+ "M"
  else if (1000 <=? value)%float then toFixed 1 (value / 1000)%float +:+ "K"
  else toFixed 0 value.

(** Right Y-axis (secondary metrics): format as percentage if values are
    between 0-100. *)
Definition tickFormatter_right (value : float) : string :=
  if (value <=? 100)%float && (0 <=? value)%float then toFixed 1 value +:+ "%"
  else if (1000 <=? value)%float then toFixed 1 (value / 1000)%float +:+ "K"
  else toFixed 1 value.

Section config.
Context (config : VisualizationConfig).

(** Helper to get yKey as string (for single-metric charts). *)
Definition getYKey : string :=
  match yKey config with
  | Some (YKeyMany keys) => str_or (keys !! 0%nat) "value"
  | Some (YKeyOne key) => str_or (Some key) "value"
  | None => "value"
  end.

(** [Array.isArray(config.yKey) ? config.yKey : [config.yKey || 'value']] *)
Definition yKeys : list string :=
  match yKey config with
  | Some (YKeyMany keys) => keys
  | Some (YKeyOne key) => [str_or (Some key) "value"]
  | None => ["value"]
  end.

(** [String(key).replace(/_/g, ' ')] *)
Definition displayName (key : string) : string := replace_underscores key.

(** The [<Bar>]s of the stacked and clustered charts, one per metric key. *)
Definition metricBars (stack : option string) : list Series :=
  imap (fun index key =>
          {| dataKey := Some key;
             seriesName := Some (displayName key);
             seriesColor := Some (color index);
             stackId := stack;
             yAxisId := None |}) yKeys.

(** *** 100% stacked: percentage for each row *)

Definition percentRow (row : Obj) : Obj :=
  let total :=
    foldl (fun sum key => (sum + number_or_0 (get row key))%float) 0%float yKeys in
  let newRow : Obj := [(str_or (xKey config) "name", get row (str_or (xKey config) "name"))] in
  foldl (fun newRow key =>
           obj_set key
             (VNum (if (0 <? total)%float
                    then (number_or_0 (get row key) / total * 100)%float
                    else 0%float))
             newRow)
        newRow yKeys.

Definition percentData (chartData : list Obj) : list Obj :=
  percentRow <$> chartData.

(** *** Waterfall: running total and differences *)

(** The [map] callback: the entry for [row], and [runningTotal] as the
    callback leaves it. *)
Definition waterfallEntry (runningTotal : float) (row : Obj) : Obj * float :=
  let value := number_or_0 (get row getYKey) in
  let start := runningTotal in
  let runningTotal := (runningTotal + value)%float in
  (obj_extend row [
     ("name", get row (str_or (xKey config) "name"));
     ("value", VNum value);
     ("start", VNum start);
     ("end", VNum runningTotal);
     (* Green for positive, red for negative *)
     ("fill", VStr (if (0 <=? value)%float then "#10b981" else "#ef4444"))
   ], runningTotal).

(** [chartData.map(..)], threading [runningTotal] through the rows. *)
Fixpoint waterfallRows (runningTotal : float) (chartData : list Obj)
    : list Obj * float :=
  match chartData with
  | [] => ([], runningTotal)
  | row :: rest =>
      let '(entry, runningTotal) := waterfallEntry runningTotal row in
      let '(entries, runningTotal) := waterfallRows runningTotal rest in
      (entry :: entries, runningTotal)
  end.

Definition waterfallData (chartData : list Obj) : list Obj :=
  let '(entries, runningTotal) := waterfallRows 0%float chartData in
  (* Add total bar *)
  entries ++ [[
    ("name", VStr "Total");
    ("value", VNum runningTotal);
    ("start", VNum 0%float);
    ("end", VNum runningTotal);
    ("fill", VStr "#667eea")
  ]].

(** *** Funnel: sort data by value descending *)

Definition funnelEntries (chartData : list Obj) : list FunnelEntry :=
  imap (fun index row =>
          {| name := ToString (get row (str_or (xKey config) "name"));
             value := number_or_0 (get row getYKey);
             fill := color index |}) chartData.

Definition funnelData (chartData : list Obj) : list FunnelEntry :=
  Array_sort (fun a b => (value b - value a)%float) (funnelEntries chartData).

(** *** Table *)

Definition renderTable (data : list Obj) : Chart :=
  match data with
  | [] => NoData
  | first :: _ =>
      let columns := Object_keys first in
      Table columns
        ((fun row =>
            (fun col => ToString (nullish_or (get row col) (VStr "-"))) <$> columns)
           <$> data)
  end.

(** *** Dispatch on the chart type *)

Definition single (key : string) (colour : string) : Series :=
  {| dataKey := Some key; seriesName := None; seriesColor := Some colour;
     stackId := None; yAxisId := None |}.

Definition rowColors (chartData : list Obj) : list string :=
  imap (fun index _ => color index) chartData.

Definition renderChart (chartData : list Obj) : Chart :=
  match type config with
  | bar =>
      BarChart chartData horizontal (xKey config)
        [single getYKey "url(#barGradient)"] []
  | line =>
      LineChart chartData (xKey config) [single getYKey "#667eea"]
  | pie =>
      PieChart chartData getYKey (str_or (xKey config) "name") (rowColors chartData)
  | area =>
      AreaChart chartData (xKey config) [single getYKey "url(#areaGradient)"]
  | scatter =>
      ScatterChart chartData (str_or (xKey config) "x") getYKey
        {| dataKey := Some getYKey; seriesName := Some (displayName getYKey);
           seriesColor := Some "#667eea"; stackId := None; yAxisId := None |}
        (rowColors chartData)
  | radar =>
      RadarChart chartData (xKey config)
        (imap (fun index key =>
                 {| dataKey := Some key; seriesName := Some (displayName key);
                    seriesColor := Some (color index); stackId := None;
                    yAxisId := None |}) yKeys)
  | composed =>
      let first := default "undefined" (yKeys !! 0%nat) in
      ComposedChart chartData (xKey config)
        (displayName first)
        (if decide (1 < length yKeys)%nat
         then Some (join " / " (displayName <$> drop 1 yKeys)) else None)
        {| dataKey := yKeys !! 0%nat; seriesName := Some (displayName first);
           seriesColor := Some "url(#composedBarGradient)"; stackId := None;
           yAxisId := Some "left" |}
        (if decide (1 < length yKeys)%nat
         then imap (fun index key =>
                      {| dataKey := Some key; seriesName := Some (displayName key);
                         seriesColor := Some (color (index + 2));
                         stackId := None; yAxisId := Some "right" |})
                   (drop 1 yKeys)
         else [])
        (bool_decide (length yKeys = 1%nat))
  | stacked_column =>
      BarChart chartData horizontal (xKey config) (metricBars (Some "stack1")) []
  | stacked_bar =>
      BarChart chartData vertical (xKey config) (metricBars (Some "stack1")) []
  | clustered_column =>
      BarChart chartData horizontal (xKey config) (metricBars None) []
  | clustered_bar =>
      BarChart chartData vertical (xKey config) (metricBars None) []
  | stacked_100 =>
      BarChart (percentData chartData) horizontal (xKey config)
        (metricBars (Some "stack1")) []
  | waterfall =>
      let waterfallData := waterfallData chartData in
      BarChart waterfallData horizontal (Some "name")
        [{| dataKey := Some "value"; seriesName := Some "Change";
            seriesColor := None; stackId := None; yAxisId := None |}]
        ((fun entry => get entry "fill") <$> waterfallData)
  | funnel =>
      let funnelData := funnelData chartData in
      FunnelChart funnelData (fill <$> funnelData)
  | table | error => renderTable chartData
  end.

End config.

(** The component. *)
Definition ChartRenderer (config : option VisualizationConfig) : Element :=
  match config with
  | None => Nothing
  | Some config =>
      match data config with
      | DataMissing | DataString "" => Nothing
      | payload =>
          (* Handle error type *)
          if decide (type config = error) then
            ErrorCard (title config) (message config)
          else
            match payload with
            | DataString s =>
                (* Parse data if it's a string *)
                match JSON_parse s with
                | None => RawText (title config) s
                | Some (PArray rows) =>
                    ChartCard (title config) (renderChart config rows)
                | Some (PRecord row) =>
                    (* Ensure chartData is an array *)
                    ChartCard (title config) (renderChart config [row])
                | Some POther => Unmodelled
                end
            | DataArray rows => ChartCard (title config) (renderChart config rows)
            | DataOther => ChartCard (title config) (renderChart config [])
            | DataMissing => Nothing
            end
      end
  end.

End renderer.

End ChartRenderer.

(** ** DataTable *)

Module DataTable.
Import Js.

Inductive View : Type :=
| NoData
| Table (columns : list string) (headers : list string) (body : list (list string)).

Section table.
Context {rt : JsRuntime}.

(** Format cell value for display. *)
Definition formatValue (value : JsVal) : string :=
  match value with
  | VNull | VUndefined => "-"
  | VNum n => NumberToLocaleString n
  | _ => ToString value
  end.

Definition DataTable (data : option (list Obj)) : View :=
  match data with
  | None | Some [] => NoData
  | Some ((first :: _) as data) =>
      (* Get column headers from the first row *)
      let columns := Object_keys first in
      Table columns
        (replace_underscores <$> columns)
        ((fun row => (fun col => formatValue (get row col)) <$> columns) <$> data)
  end.

End table.

End DataTable.

(** ** A runtime to run the examples on

    The theorems hold for every runtime; this one only serves to evaluate
    the definitions on concrete inputs. [StringToNumber] reads strings of
    decimal digits (the empty string is [0]) and takes every other string as
    non-numeric; [NumberToString] prints an integer in decimal, as the
    browser does below [10^21], and a number with a fractional part as
    numerator [/] denominator; [NumberToLocaleString] groups the integer part
    by thousands and keeps at most two fraction digits; [JSON_parse] knows
    five payloads (the empty array, the empty record, [null], one record and
    the array of that record) and takes every other string as not
    parsable. *)

Module Sample.
Import Js.

Fixpoint digits_value (acc : Z) (s : string) : option Z :=
  match s with
  | EmptyString => Some acc
  | String c s' =>
      let n := Z.of_nat (nat_of_ascii c) in
      if decide (48 <= n <= 57)%Z then digits_value (10 * acc + (n - 48)) s'
      else None
  end.

Definition sample_StringToNumber (s : string) : float :=
  match digits_value 0 s with
  | Some z => of_Z z
  | None => nan
  end.

(** A finite double as a fraction in lowest terms. *)
Definition fraction (x : float) : Z * Z :=
  match Prim2SF x with
  | S754_finite _ m e =>
      match e with
      | Z.neg p =>
          let g := Z.gcd (Z.pos m) (2 ^ Z.pos p) in
          (Z.pos m / g, 2 ^ Z.pos p / g)%Z
      | _ => (Z.pos m * 2 ^ e, 1)%Z
      end
  | _ => (0, 1)%Z
  end.

Definition sample_NumberToString (x : float) : string :=
  if is_nan x then "NaN"
  else if is_infinity x then (if (x <? 0)%float then "-Infinity" else "Infinity")
  else
    let s := if (x <? 0)%float then "-" else "" in
    let '(n, d) := fraction x in
    if decide (d = 1)%Z then s +:+ pretty n
    else s +:+ pretty n +:+ "/" +:+ pretty d.

(** [s] with a comma before every group of three digits; [remaining] is the
    length of [s]. *)
Fixpoint group3 (first : bool) (remaining : nat) (s : string) : string :=
  match s, remaining with
  | String c s', S r =>
      let sep := if negb first && bool_decide (remaining mod 3 = 0)%nat then "," else "" in
      sep +:+ String c (group3 false r s')
  | _, _ => ""
  end.

Definition sample_NumberToLocaleString (x : float) : string :=
  if is_nan x then "NaN"
  else if is_infinity x then (if (x <? 0)%float then "-∞" else "∞")
  else
    let s := if (x <? 0)%float then "-" else "" in
    let n := round_half_up x 100 in
    let whole := pretty (n / 100)%Z in
    let cents := (n mod 100)%Z in
    let fraction :=
      if decide (cents = 0)%Z then ""
      else if decide (cents mod 10 = 0)%Z then "." +:+ pretty (cents / 10)%Z
      else if decide (cents < 10)%Z then ".0" +:+ pretty cents
      else "." +:+ pretty cents in
    s +:+ group3 true (String.length whole) whole +:+ fraction.

(** The text [{"cat":"A","x":10,"y":30}] and the record it denotes. *)
Definition record_json : string :=
  let q := String "034"%char "" in
  "{" +:+ q +:+ "cat" +:+ q +:+ ":" +:+ q +:+ "A" +:+ q +:+ ","
      +:+ q +:+ "x" +:+ q +:+ ":10," +:+ q +:+ "y" +:+ q +:+ ":30}".

Definition record_value : Obj :=
  [("cat", VStr "A"); ("x", VNum 10); ("y", VNum 30)].

Definition sample_JSON_parse (s : string) : option Parsed :=
  if decide (s = "[]") then Some (PArray [])
  else if decide (s = "{}") then Some (PRecord [])
  else if decide (s = "null") then Some POther
  else if decide (s = record_json) then Some (PRecord record_value)
  else if decide (s = "[" +:+ record_json +:+ "]") then Some (PArray [record_value])
  else None.

Definition runtime : JsRuntime :=
  {| StringToNumber := sample_StringToNumber;
     NumberToString := sample_NumberToString;
     NumberToLocaleString := sample_NumberToLocaleString;
     JSON_parse := sample_JSON_parse |}.

End Sample.

(** ** The specification's reading of the selection after a new result *)

Module Spec.
Import Api.

(** [recommendedCharts[0] ?? type]: the first recommended chart, and the
    config's own type when there is none. *)
Definition currentAfterResult (config : VisualizationConfig) : ChartType :=
  match recommended_charts config with
  | Some (first :: _) => first
  | Some [] | None => type config
  end.

(** [Σ values]: the values added up from left to right, starting from 0,
    each addition rounded to a double. *)
Definition sum (values : list float) : float := foldl PrimFloat.add 0%float values.

End Spec.

(** ** Inputs of the examples *)

Module Examples.
Import Js Api.

Definition num (z : Z) : JsVal := VNum (of_Z z).

Definition config_of (t : ChartType) (x : option string) (y : option YKey)
    (d : Data) (recommended : option (list ChartType)) : VisualizationConfig :=
  {| type := t; title := "Sales"; xKey := x; yKey := y; data := d;
     message := None; recommended_charts := recommended |}.

Definition response_of (config : VisualizationConfig) : AnalyzeResponse :=
  {| question := "Show me total sales by category";
     sql_query := "SELECT category, SUM(total) FROM sales GROUP BY category";
     results := "";
     visualization_config := Some config;
     steps := ["Generated SQL"; "Executed query"] |}.

(** A result typed [bar] whose recommendation list starts with [line]. *)
Definition bar_recommending_line : VisualizationConfig :=
  config_of bar (Some "category") (Some (YKeyOne "total"))
    (DataArray [[("category", VStr "A"); ("total", num 10)]])
    (Some [line; bar]).

(** Three changes, [+5], [-3], [+2]. *)
Definition waterfall_config : VisualizationConfig :=
  config_of waterfall (Some "step") (Some (YKeyOne "delta")) (DataArray []) None.

Definition waterfall_rows : list Obj := [
  [("step", VStr "Sales"); ("delta", num 5)];
  [("step", VStr "Refunds"); ("delta", num (-3))];
  [("step", VStr "Upsell"); ("delta", num 2)]
].

(** The double nearest to 0.1. *)
Definition tenth : float := (1 / 10)%float.

(** Changes of 0.1 and 0.2, and a change of 1 after one of 2^53. *)
Definition waterfall_tenths : list Obj := [
  [("step", VStr "a"); ("delta", VNum tenth)];
  [("step", VStr "b"); ("delta", VNum (2 / 10)%float)]
].

Definition waterfall_large : list Obj := [
  [("step", VStr "a"); ("delta", VNum 9007199254740992)];
  [("step", VStr "b"); ("delta", VNum 1)]
].

(** One category with two metrics, and a column that is neither. *)
Definition stacked_config : VisualizationConfig :=
  config_of stacked_100 (Some "cat") (Some (YKeyMany ["x"; "y"])) (DataArray []) None.

Definition stacked_row : Obj :=
  [("cat", VStr "A"); ("x", num 10); ("y", num 30)].

Definition stacked_row_zero : Obj :=
  [("cat", VStr "B"); ("x", num 0); ("y", VNull)].

Definition stacked_row_thirds : Obj :=
  [("cat", VStr "C"); ("x", num 1); ("y", num 2)].

Definition stacked_row_region : Obj :=
  [("cat", VStr "A"); ("region", VStr "EU"); ("x", num 10); ("y", num 30)].

(** Three funnel stages with values 3, 9, 1. *)
Definition funnel_config : VisualizationConfig :=
  config_of funnel (Some "stage") (Some (YKeyOne "count")) (DataArray []) None.

Definition funnel_rows : list Obj := [
  [("stage", VStr "Trial"); ("count", num 3)];
  [("stage", VStr "Visit"); ("count", num 9)];
  [("stage", VStr "Paid"); ("count", num 1)]
].

(** The same stages under the default name key, for a config without
    [xKey], and for a config whose keys are empty strings. *)
Definition funnel_default_config : VisualizationConfig :=
  config_of funnel None (Some (YKeyOne "count")) (DataArray []) None.

Definition funnel_empty_key_config : VisualizationConfig :=
  config_of funnel (Some "") (Some (YKeyOne "")) (DataArray []) None.

Definition funnel_named_rows : list Obj := [
  [("name", VStr "Trial"); ("count", num 3)];
  [("name", VStr "Visit"); ("count", num 9)];
  [("name", VStr "Paid"); ("count", num 1)]
].



(** A bar chart over an empty result. *)
Definition empty_bar_config : VisualizationConfig :=
  config_of bar (Some "category") (Some (YKeyOne "total")) (DataArray []) None.

(** A table over an empty result. *)
Definition empty_table_config : VisualizationConfig :=
  config_of table (Some "category") (Some (YKeyOne "total")) (DataArray []) None.

(** Payloads that are strings and do not parse. *)
Definition unparsable_config : VisualizationConfig :=
  config_of bar (Some "category") (Some (YKeyOne "total"))
    (DataString "category,total") None.

Definition empty_string_config : VisualizationConfig :=
  config_of bar (Some "category") (Some (YKeyOne "total")) (DataString "") None.

Definition unparsable_error_config : VisualizationConfig :=
  config_of error None None (DataString "category,total") None.


End Examples.

(** ** More of the JavaScript string built-ins *)

Module JsText.
Import Js.



(** [s.includes(needle)] *)
Fixpoint includes (needle s : string) : bool :=
  if String.prefix needle s then true
  else match s with
       | EmptyString => false
       | String _ s' => includes needle s'
       end.

(** [s.replace(/ /g, '_')] *)
Fixpoint replace_spaces (s : string) : string :=
  match s with
  | EmptyString => EmptyString
  | String c s' =>
      String (if Ascii.eqb c " "%char then "_"%char else c) (replace_spaces s')
  end.

(** [s.padStart(targetLength, '0')] *)
Definition padStart0 (targetLength : nat) (s : string) : string :=
  zeros (targetLength - String.length s) +:+ s.

End JsText.

(** ** ChartRenderer: the tooltip of the composed chart *)

Module ComposedTooltip.
Import Js Api JsText.

Section tooltip.
Context {rt : JsRuntime} (config : VisualizationConfig).




End tooltip.

End ComposedTooltip.

(** ** ChartTypeSelector: the buttons *)

Module SelectorView.
Import Js Api ChartTypeSelector.

(** One button of the selector, with what decides its look. *)
Record Button : Type := {
  chartOption : ChartOption;
  selected : bool;
  recommended : bool;
  (** the sparkle: [aiPick && selected] *)
  sparkle : bool;
  (** the dot: [recommended && !selected] *)
  dot : bool
}.

(** [sortedOptions.map(..)] for the component's [currentType]. *)
Definition buttons (currentType : ChartType) (recommendedTypes : list ChartType)
    : list Button :=
  (λ o,
     let recommended := isRecommended recommendedTypes (value o) in
     let aiPick := isAIPick recommendedTypes (value o) in
     let selected := bool_decide (currentType = value o) in
     {| chartOption := o;
        selected := selected;
        recommended := recommended;
        sparkle := aiPick && selected;
        dot := recommended && negb selected |})
  <$> sortedOptions recommendedTypes.

(** The selector as the dashboard mounts it, once a result with a config is
    there: [selectedType = selectedChartType || aiRecommendedType]. *)
Definition mounted (s : Dashboard.State) : option (list Button) :=
  match Dashboard.getEffectiveConfig s, Dashboard.selectorType s with
  | Some _, Some selectedType =>
      Some (buttons selectedType (Dashboard.recommendedCharts s))
  | _, _ => None
  end.

End SelectorView.

(** ** StepLogger *)

Module StepLogger.
Import Js JsText.

(** The log: one numbered row per step, and the "Processing..." row. *)
Record View : Type := {
  rows : list (string * string);
  processing : bool
}.

(** [String(index + 1).padStart(2, '0')] *)
Definition rowLabel (index : nat) : string :=
  padStart0 2 (pretty (Z.of_nat (index + 1))).

Definition StepLogger (steps : list string) (isLoading : bool) : option View :=
  if bool_decide (length steps = 0%nat) && negb isLoading then None
  else Some {| rows := imap (λ index step, (rowLabel index, step)) steps;
               processing := isLoading |}.

(** The logger as the dashboard mounts it. *)
Definition mounted (s : Dashboard.State) : option View :=
  StepLogger (Dashboard.steps s) (Dashboard.isLoading s).

End StepLogger.

(** ** QueryInput, and the dashboard behind it *)

Module QueryInput.

Section input.
(** [String.prototype.trim] *)
Context (trim : string → string).

(** The submit handler: what it passes to [onSubmit], if anything. *)
Definition handleSubmit (question : string) (isLoading : bool) : option string :=
  match trim question, isLoading with
  | String c q, false => Some (String c q)
  | _, _ => None
  end.

(** The submit button's [disabled]. *)
Definition disabled (question : string) (isLoading : bool) : bool :=
  isLoading || bool_decide (trim question = "").

End input.

End QueryInput.

Module App.
Import Api.

(** The dashboard together with the requests it has sent and that have not
    settled yet: each call of [handleSubmit] awaits one [analyzeQuestion]
    promise, which resolves or rejects once. *)
Record State : Type := {
  dashboard : Dashboard.State;
  inFlight : nat
}.

Definition initial : State :=
  {| dashboard := Dashboard.initial; inFlight := 0 |}.

Inductive Event : Type :=
| SubmitForm (question : string)
| Resolve (response : AnalyzeResponse)
| Reject (message : option string)
| Pick (type : ChartType).

Section app.
Context (trim : string → string).

Definition step (s : State) (e : Event) : State :=
  match e with
  | SubmitForm question =>
      match QueryInput.handleSubmit trim question (Dashboard.isLoading (dashboard s)) with
      | Some q =>
          {| dashboard := Dashboard.handleSubmit_begin q (dashboard s);
             inFlight := S (inFlight s) |}
      | None => s
      end
  | Resolve response =>
      match inFlight s with
      | O => s
      | S n =>
          {| dashboard := Dashboard.handleSubmit_resolved response (dashboard s);
             inFlight := n |}
      end
  | Reject message =>
      match inFlight s with
      | O => s
      | S n =>
          {| dashboard := Dashboard.handleSubmit_rejected message (dashboard s);
             inFlight := n |}
      end
  | Pick type =>
      {| dashboard := Dashboard.handleChartTypeChange type (dashboard s);
         inFlight := inFlight s |}
  end.

Definition run (s : State) (events : list Event) : State :=
  foldl step s events.

End app.

End App.

(** ** streamAnalysis ([services/api.ts]) *)

Module Stream.
Import Api.

(** [event.data] once parsed, by its [type] tag. *)
Inductive Payload : Type :=
| PStep (data : string)
| PResult (data : AnalyzeResponse)
| PError (data : string)
| POther.

(** What the event source delivers: a message, whose handler body either
    gets a payload out of [JSON.parse] or throws inside its [try], and a
    connection error. *)
Inductive SourceEvent : Type :=
| Message (parsed : option Payload)
| ConnectionError.

(** What the handlers call. *)
Inductive Call : Type :=
| OnStep (step : string)
| OnResult (result : AnalyzeResponse)
| OnError (error : string)
| ConsoleError.

(** The event source: closed or not, and the calls made so far. A closed
    source dispatches no further events, and the callbacks are taken to
    return normally. *)
Record Source : Type := {
  closed : bool;
  calls : list Call
}.

Definition opened : Source := {| closed := false; calls := [] |}.

Definition onmessage (parsed : option Payload) (src : Source) : Source :=
  match parsed with
  | Some (PStep data) => {| closed := closed src; calls := calls src ++ [OnStep data] |}
  | Some (PResult data) => {| closed := true; calls := calls src ++ [OnResult data] |}
  | Some (PError data) => {| closed := true; calls := calls src ++ [OnError data] |}
  | Some POther => src
  | None => {| closed := closed src; calls := calls src ++ [ConsoleError] |}
  end.

Definition onerror (src : Source) : Source :=
  {| closed := true; calls := calls src ++ [OnError "Connection lost"] |}.

Definition dispatch (src : Source) (e : SourceEvent) : Source :=
  if closed src then src
  else match e with
       | Message parsed => onmessage parsed src
       | ConnectionError => onerror src
       end.

Definition run (src : Source) (events : list SourceEvent) : Source :=
  foldl dispatch src events.

(** The cleanup function [streamAnalysis] returns. *)
Definition cleanup (src : Source) : Source :=
  {| closed := true; calls := calls src |}.

(** An event whose handler closes the source. *)
Definition terminal (e : SourceEvent) : bool :=
  match e with
  | Message (Some (PResult _)) | Message (Some (PError _)) | ConnectionError => true
  | Message _ => false
  end.

(** The calls of the events that do not close the source. *)
Definition progressCalls (e : SourceEvent) : list Call :=
  match e with
  | Message (Some (PStep data)) => [OnStep data]
  | Message None => [ConsoleError]
  | _ => []
  end.

(** The call of an event that closes the source. *)
Definition terminalCall (e : SourceEvent) : list Call :=
  match e with
  | Message (Some (PResult data)) => [OnResult data]
  | Message (Some (PError data)) => [OnError data]
  | ConnectionError => [OnError "Connection lost"]
  | Message _ => []
  end.

Definition isTerminalCall (c : Call) : bool :=
  match c with
  | OnResult _ | OnError _ => true
  | OnStep _ | ConsoleError => false
  end.

End Stream.

(** * Properties *)

(** ** Doubles: order and the sign of a difference *)

Section float_order.
Import FloatOrder.

Lemma rank_compare_spec (a b : Z * Z * Z) :
  match rank_compare a b with
  | Lt => rank_lt a b
  | Eq => a = b
  | Gt => rank_lt b a
  end.
Proof.
  destruct a as [[a1 a2] a3], b as [[b1 b2] b3]. unfold rank_compare, rank_lt. simpl.
  destruct (Z.compare_spec a1 b1), (Z.compare_spec a2 b2), (Z.compare_spec a3 b3);
    try lia; by simplify_eq.
Qed.

Lemma SFcompare_rank (x y : spec_float) :
  x ≠ S754_nan → y ≠ S754_nan →
  SFcompare x y = Some (rank_compare (rank x) (rank y)).
Proof.
  intros Hx Hy.
  destruct x as [[]|[]| |[] mx ex], y as [[]|[]| |[] my ey]; try done;
    unfold rank_compare; simpl.
  rewrite Z.compare_opp. rewrite (Z.compare_antisym ex ey).
  by destruct (ex ?= ey)%Z.
Qed.



Lemma spec_float_nan_dec (x : spec_float) : x = S754_nan ∨ x ≠ S754_nan.
Proof. destruct x; auto. Qed.

Lemma SFcompare_nan_l (y : spec_float) : SFcompare S754_nan y = None.
Proof. done. Qed.

Lemma SFcompare_nan_r (x : spec_float) : SFcompare x S754_nan = None.
Proof. by destruct x. Qed.

Lemma SFcompare_cases (x y : spec_float) :
  x ≠ S754_nan → y ≠ S754_nan →
  SFcompare x y = Some Lt ∧ rank_lt (rank x) (rank y)
  ∨ SFcompare x y = Some Eq ∧ rank x = rank y
  ∨ SFcompare x y = Some Gt ∧ rank_lt (rank y) (rank x).
Proof.
  intros Hx Hy. rewrite SFcompare_rank by done.
  pose proof (rank_compare_spec (rank x) (rank y)) as Hc.
  destruct (rank_compare _ _); auto.
Qed.

Lemma rank_lt_irrefl (a : Z * Z * Z) : ¬ rank_lt a a.
Proof. destruct a as [[? ?] ?]. unfold rank_lt. simpl. lia. Qed.

Lemma rank_lt_asym (a b : Z * Z * Z) : rank_lt a b → ¬ rank_lt b a.
Proof. destruct a as [[? ?] ?], b as [[? ?] ?]. unfold rank_lt. simpl. lia. Qed.

Lemma rank_lt_trans (a b c : Z * Z * Z) : rank_lt a b → rank_lt b c → rank_lt a c.
Proof.
  destruct a as [[? ?] ?], b as [[? ?] ?], c as [[? ?] ?]. unfold rank_lt. simpl. lia.
Qed.

Lemma rank_nlt_trans (a b c : Z * Z * Z) :
  ¬ rank_lt b a → ¬ rank_lt c b → ¬ rank_lt c a.
Proof.
  destruct a as [[? ?] ?], b as [[? ?] ?], c as [[? ?] ?]. unfold rank_lt. simpl. lia.
Qed.

Lemma rank_lt_total (a b : Z * Z * Z) : rank_lt a b ∨ a = b ∨ rank_lt b a.
Proof.
  destruct a as [[a1 a2] a3], b as [[b1 b2] b3]. unfold rank_lt. simpl.
  destruct (Z.lt_trichotomy a1 b1) as [?|[->|?]]; [lia| |lia].
  destruct (Z.lt_trichotomy a2 b2) as [?|[->|?]]; [lia| |lia].
  destruct (Z.lt_trichotomy a3 b3) as [?|[->|?]]; [lia| |lia].
  by right; left.
Qed.

Lemma SFltb_rank (x y : spec_float) :
  SFltb x y = true ↔ x ≠ S754_nan ∧ y ≠ S754_nan ∧ rank_lt (rank x) (rank y).
Proof.
  unfold SFltb.
  destruct (spec_float_nan_dec x) as [->|Hx].
  { rewrite SFcompare_nan_l. split; [done|]. by intros [? _]. }
  destruct (spec_float_nan_dec y) as [->|Hy].
  { rewrite SFcompare_nan_r. split; [done|]. by intros (_ & ? & _). }
  destruct (SFcompare_cases x y Hx Hy) as [[-> Hr]|[[-> Hr]|[-> Hr]]].
  - done.
  - split; [done|]. intros (_ & _ & Hlt). rewrite Hr in Hlt.
    by apply rank_lt_irrefl in Hlt.
  - split; [done|]. intros (_ & _ & Hlt). by apply rank_lt_asym in Hlt.
Qed.

Lemma SFleb_rank (x y : spec_float) :
  SFleb x y = true ↔ x ≠ S754_nan ∧ y ≠ S754_nan ∧ ¬ rank_lt (rank y) (rank x).
Proof.
  unfold SFleb.
  destruct (spec_float_nan_dec x) as [->|Hx].
  { rewrite SFcompare_nan_l. split; [done|]. by intros [? _]. }
  destruct (spec_float_nan_dec y) as [->|Hy].
  { rewrite SFcompare_nan_r. split; [done|]. by intros (_ & ? & _). }
  destruct (SFcompare_cases x y Hx Hy) as [[-> Hr]|[[-> Hr]|[-> Hr]]].
  - split; [|done]. intros _. split_and!; [done..|]. by apply rank_lt_asym.
  - split; [|done]. intros _. split_and!; [done..|]. rewrite Hr. apply rank_lt_irrefl.
  - split; [done|]. by intros (_ & _ & Hlt).
Qed.

Lemma SFeqb_rank (x y : spec_float) :
  SFeqb x y = true ↔ x ≠ S754_nan ∧ y ≠ S754_nan ∧ rank x = rank y.
Proof.
  unfold SFeqb.
  destruct (spec_float_nan_dec x) as [->|Hx].
  { rewrite SFcompare_nan_l. split; [done|]. by intros [? _]. }
  destruct (spec_float_nan_dec y) as [->|Hy].
  { rewrite SFcompare_nan_r. split; [done|]. by intros (_ & ? & _). }
  destruct (SFcompare_cases x y Hx Hy) as [[-> Hr]|[[-> Hr]|[-> Hr]]].
  - split; [done|]. intros (_ & _ & Heq). rewrite Heq in Hr.
    by apply rank_lt_irrefl in Hr.
  - done.
  - split; [done|]. intros (_ & _ & Heq). rewrite Heq in Hr.
    by apply rank_lt_irrefl in Hr.
Qed.

Lemma is_nan_spec (x : float) : is_nan x = true ↔ Prim2SF x = S754_nan.
Proof.
  unfold is_nan. rewrite negb_true_iff, <- not_true_iff_false.
  rewrite FloatAxioms.eqb_spec, SFeqb_rank.
  destruct (spec_float_nan_dec (Prim2SF x)) as [Hx|Hx]; split; try done.
  - by intros _ (? & _).
  - intros Hn. destruct Hn. by split_and!.
Qed.

Lemma is_nan_false (x : float) : is_nan x = false ↔ Prim2SF x ≠ S754_nan.
Proof. rewrite <- is_nan_spec. by destruct (is_nan x). Qed.

Lemma float_ltb_rank (x y : float) :
  (x <? y)%float = true ↔
  is_nan x = false ∧ is_nan y = false ∧ rank_lt (rank (Prim2SF x)) (rank (Prim2SF y)).
Proof. by rewrite FloatAxioms.ltb_spec, SFltb_rank, !is_nan_false. Qed.

Lemma float_leb_rank (x y : float) :
  (x <=? y)%float = true ↔
  is_nan x = false ∧ is_nan y = false ∧ ¬ rank_lt (rank (Prim2SF y)) (rank (Prim2SF x)).
Proof. by rewrite FloatAxioms.leb_spec, SFleb_rank, !is_nan_false. Qed.

Lemma float_eqb_rank (x y : float) :
  (x =? y)%float = true ↔
  is_nan x = false ∧ is_nan y = false ∧ rank (Prim2SF x) = rank (Prim2SF y).
Proof. by rewrite FloatAxioms.eqb_spec, SFeqb_rank, !is_nan_false. Qed.

End float_order.

Section float_sub.
Import FloatOrder.

Lemma digits2_pos_bounds (p : positive) :
  (2 ^ (Z.pos (digits2_pos p) - 1) <= Z.pos p < 2 ^ Z.pos (digits2_pos p))%Z.
Proof.
  induction p as [p IH|p IH|]; simpl digits2_pos; [| |done].
  - rewrite Pos2Z.inj_succ, Pos2Z.inj_xI.
    replace (Z.succ (Z.pos (digits2_pos p)) - 1)%Z
      with (Z.succ (Z.pos (digits2_pos p) - 1)) by lia.
    rewrite !Z.pow_succ_r by lia. lia.
  - rewrite Pos2Z.inj_succ. change (Z.pos p~0) with (2 * Z.pos p)%Z.
    replace (Z.succ (Z.pos (digits2_pos p)) - 1)%Z
      with (Z.succ (Z.pos (digits2_pos p) - 1)) by lia.
    rewrite !Z.pow_succ_r by lia. lia.
Qed.

Lemma shr_1_m (mrs : shr_record) :
  (0 <= shr_m mrs)%Z → shr_m (shr_1 mrs) = (shr_m mrs / 2)%Z.
Proof.
  intros Hm. rewrite <- Z.div2_div.
  by destruct mrs as [[|[p|p|]|p] r s].
Qed.

Lemma iter_shr_1_m (n : positive) (mrs : shr_record) :
  (0 <= shr_m mrs)%Z →
  shr_m (SpecFloat.iter_pos shr_1 n mrs) = (shr_m mrs / 2 ^ Z.pos n)%Z.
Proof.
  revert mrs. induction n as [n IH|n IH|]; intros mrs Hm; simpl.
  - assert (H1 : (0 <= shr_m (shr_1 mrs))%Z).
    { rewrite shr_1_m by done. by apply Z.div_pos. }
    assert (H2 : (0 <= shr_m (SpecFloat.iter_pos shr_1 n (shr_1 mrs)))%Z).
    { rewrite IH by done. apply Z.div_pos; [done|]. apply Z.pow_pos_nonneg; lia. }
    rewrite IH, IH, shr_1_m by done.
    rewrite !Z.div_div by (try apply Z.pow_pos_nonneg; lia).
    f_equal. replace (Z.pos n~1) with (1 + Z.pos n + Z.pos n)%Z by lia.
    rewrite !Z.pow_add_r by lia. change (2 ^ 1)%Z with 2%Z. lia.
  - assert (H2 : (0 <= shr_m (SpecFloat.iter_pos shr_1 n mrs))%Z).
    { rewrite IH by done. apply Z.div_pos; [done|]. apply Z.pow_pos_nonneg; lia. }
    rewrite IH, IH by done.
    rewrite !Z.div_div by (try apply Z.pow_pos_nonneg; lia).
    f_equal. replace (Z.pos n~0) with (Z.pos n + Z.pos n)%Z by lia.
    rewrite !Z.pow_add_r by lia. lia.
  - rewrite shr_1_m by done. done.
Qed.

Lemma shr_record_of_loc_m (m : Z) (l : location) : shr_m (shr_record_of_loc m l) = m.
Proof. by destruct l as [|[]]. Qed.

Lemma shr_fexp_pos (m e : Z) (l : location) :
  (0 < m)%Z → (emin <= e)%Z →
  (0 < shr_m (shr_fexp prec emax m e l).1)%Z ∧ (emin <= (shr_fexp prec emax m e l).2)%Z.
Proof.
  intros Hm He. destruct m as [|p|p]; try done.
  unfold shr_fexp, shr. simpl Zdigits2.
  pose proof (digits2_pos_bounds p) as [Hlo Hhi].
  set (d := Z.pos (digits2_pos p)) in *.
  destruct (fexp prec emax (d + e) - e)%Z as [|q|q] eqn:Hk; simpl.
  - by rewrite shr_record_of_loc_m.
  - rewrite iter_shr_1_m by by rewrite shr_record_of_loc_m.
    rewrite shr_record_of_loc_m.
    unfold fexp, SpecFloat.emin, prec, emax in *.
    split; [|lia].
    apply Z.div_str_pos. split; [apply Z.pow_pos_nonneg; lia|].
    trans (2 ^ (d - 1))%Z; [|done].
    apply Z.pow_le_mono_r; lia.
  - by rewrite shr_record_of_loc_m.
Qed.

Lemma binary_round_aux_pos (m e : Z) (l : location) :
  (0 < m)%Z → (emin <= e)%Z →
  SFltb (S754_zero false) (binary_round_aux prec emax false m e l) = true.
Proof.
  intros Hm He. unfold binary_round_aux.
  destruct (shr_fexp_pos m e l Hm He) as [Hm' He'].
  destruct (shr_fexp prec emax m e l) as [mrs' e']. simpl in Hm', He'.
  assert (Hr : (0 < round_nearest_even (shr_m mrs') (loc_of_shr_record mrs'))%Z).
  { unfold round_nearest_even.
    destruct (loc_of_shr_record mrs') as [|[]]; try destruct (Z.even _); lia. }
  destruct (shr_fexp_pos _ e' loc_Exact Hr He') as [Hm'' _].
  destruct (shr_fexp prec emax _ e' loc_Exact) as [mrs'' e'']. simpl in Hm''.
  destruct (shr_m mrs''); try done. by destruct (_ <=? _)%Z.
Qed.

Lemma binary_round_aux_neg (m e : Z) (l : location) :
  SFltb (S754_zero false) (binary_round_aux prec emax true m e l) = false.
Proof.
  unfold binary_round_aux.
  destruct (shr_fexp prec emax m e l) as [mrs' e'].
  destruct (shr_fexp prec emax _ e' loc_Exact) as [mrs'' e''].
  destruct (shr_m mrs''); try done. by destruct (_ <=? _)%Z.
Qed.

Lemma binary_normalize_pos (m e : Z) :
  (emin <= e)%Z →
  SFltb (S754_zero false) (binary_normalize prec emax m e false) = (0 <? m)%Z.
Proof.
  intros He. destruct m as [|p|p]; simpl; [done| |].
  - unfold binary_round.
    destruct (shl_align p e _) as [mz ez] eqn:Hs.
    apply binary_round_aux_pos; [done|].
    unfold shl_align in Hs.
    destruct (_ - e)%Z; simplify_eq; try done.
    unfold fexp, SpecFloat.emin, prec, emax in *. lia.
  - unfold binary_round. destruct (shl_align p e _) as [mz ez].
    apply binary_round_aux_neg.
Qed.

Lemma shl_align_fst (m : positive) (e e' : Z) :
  (e' <= e)%Z → Z.pos (shl_align m e e').1 = (Z.pos m * 2 ^ (e - e'))%Z.
Proof.
  intros He. unfold shl_align.
  destruct (e' - e)%Z as [|d|d] eqn:Hd; simpl.
  - replace (e - e')%Z with 0%Z by lia. lia.
  - lia.
  - replace (e - e')%Z with (Z.pos d) by lia.
    fold (shift_pos d m). rewrite shift_pos_correct. apply Z.mul_comm.
Qed.

Lemma bounded_canonical (m : positive) (e : Z) :
  bounded prec emax m e = true →
  (emin <= e)%Z ∧ (Z.pos m < 2 ^ 53)%Z ∧ ((emin < e)%Z → (2 ^ 52 <= Z.pos m)%Z).
Proof.
  unfold bounded, canonical_mantissa, fexp, SpecFloat.emin, prec, emax.
  rewrite andb_true_iff, Z.eqb_eq, Z.leb_le. intros [Hc _].
  pose proof (digits2_pos_bounds m) as [Hlo Hhi].
  split_and!; [lia| |].
  - eapply Z.lt_le_trans; [exact Hhi|]. apply Z.pow_le_mono_r; lia.
  - intros He. by replace (Z.pos (digits2_pos m) - 1)%Z with 52%Z in Hlo by lia.
Qed.

Lemma pow2_ge_2 (k : Z) : (0 < k)%Z → (2 <= 2 ^ k)%Z.
Proof.
  intros Hk. change 2%Z with (2 ^ 1)%Z at 1. apply Z.pow_le_mono_r; lia.
Qed.

Lemma SFsub_finite_pos (sa sb : bool) (ma mb : positive) (ea eb : Z) :
  bounded prec emax ma ea = true → bounded prec emax mb eb = true →
  SFltb (S754_zero false)
    (SFsub prec emax (S754_finite sb mb eb) (S754_finite sa ma ea)) =
  SFltb (S754_finite sa ma ea) (S754_finite sb mb eb).
Proof.
  intros (Ha1 & Ha2 & Ha3)%bounded_canonical (Hb1 & Hb2 & Hb3)%bounded_canonical.
  unfold SFsub. rewrite binary_normalize_pos by lia.
  rewrite !shl_align_fst by lia.
  apply eq_true_iff_eq. rewrite Z.ltb_lt, SFltb_rank.
  change (2 ^ 53)%Z with 9007199254740992%Z in *.
  change (2 ^ 52)%Z with 4503599627370496%Z in *.
  assert (Hiff : ∀ P Q : Prop, (P ↔ Q) → (P ↔ S754_finite sa ma ea ≠ S754_nan
                   ∧ S754_finite sb mb eb ≠ S754_nan ∧ Q)).
  { intros P Q HPQ. rewrite HPQ. split; [by intros ?|by intros (_ & _ & ?)]. }
  apply Hiff. clear Hiff.
  destruct (Z.lt_trichotomy ea eb) as [Hlt|[->|Hgt]].
  - rewrite Z.min_r by lia. rewrite Z.sub_diag. change (2 ^ 0)%Z with 1%Z.
    pose proof (pow2_ge_2 (eb - ea)) as HP. specialize (Hb3 ltac:(lia)).
    generalize dependent (2 ^ (eb - ea))%Z. intros P HP. specialize (HP ltac:(lia)).
    destruct sa, sb; unfold rank_lt; simpl; nia.
  - rewrite Z.min_id, Z.sub_diag. change (2 ^ 0)%Z with 1%Z.
    destruct sa, sb; unfold rank_lt; simpl; lia.
  - rewrite Z.min_l by lia. rewrite Z.sub_diag. change (2 ^ 0)%Z with 1%Z.
    pose proof (pow2_ge_2 (ea - eb)) as HP. specialize (Ha3 ltac:(lia)).
    generalize dependent (2 ^ (ea - eb))%Z. intros P HP. specialize (HP ltac:(lia)).
    destruct sa, sb; unfold rank_lt; simpl; nia.
Qed.

Lemma SFsub_pos (x y : spec_float) :
  valid_binary x = true → valid_binary y = true →
  x ≠ S754_nan → y ≠ S754_nan →
  SFltb (S754_zero false) (SFsub prec emax y x) = SFltb x y.
Proof.
  intros Hvx Hvy Hx Hy.
  destruct x as [[]|[]| |sa ma ea], y as [[]|[]| |sb mb eb]; try done;
    try (by destruct sa); try (by destruct sb).
  by apply SFsub_finite_pos.
Qed.

(** In double arithmetic the sign of a difference tells the order. *)
Lemma float_sub_pos (x y : float) :
  is_nan x = false → is_nan y = false → (0 <? y - x)%float = (x <? y)%float.
Proof.
  intros Hx%is_nan_false Hy%is_nan_false.
  rewrite !FloatAxioms.ltb_spec, FloatAxioms.sub_spec.
  change (Prim2SF 0) with (S754_zero false).
  apply SFsub_pos; auto using Prim2SF_valid.
Qed.

End float_sub.

Section float_more.
Import FloatOrder.

Lemma float_leb_refl (x : float) : is_nan x = false → (x <=? x)%float = true.
Proof.
  intros Hx. apply float_leb_rank. split_and!; [done..|]. apply rank_lt_irrefl.
Qed.

Lemma float_leb_trans (x y z : float) :
  (x <=? y)%float = true → (y <=? z)%float = true → (x <=? z)%float = true.
Proof.
  rewrite !float_leb_rank. intros (Hx & _ & Hxy) (_ & Hz & Hyz).
  split_and!; [done..|]. by apply rank_nlt_trans with (rank (Prim2SF y)).
Qed.

Lemma float_leb_total (x y : float) :
  is_nan x = false → is_nan y = false →
  (x <=? y)%float = true ∨ (y <=? x)%float = true.
Proof.
  intros Hx Hy. rewrite !float_leb_rank.
  destruct (rank_lt_total (rank (Prim2SF x)) (rank (Prim2SF y))) as [Hlt|[Heq|Hgt]].
  - left. split_and!; [done..|]. by apply rank_lt_asym.
  - left. split_and!; [done..|]. rewrite Heq. apply rank_lt_irrefl.
  - right. split_and!; [done..|]. by apply rank_lt_asym.
Qed.

(** On numbers, [x < y] fails exactly when [y <= x] holds. *)
Lemma float_ltb_false (x y : float) :
  is_nan x = false → is_nan y = false →
  (x <? y)%float = false ↔ (y <=? x)%float = true.
Proof.
  intros Hx Hy. rewrite <- not_true_iff_false, float_ltb_rank, float_leb_rank.
  split.
  - intros Hn. split_and!; [done..|]. intros Hlt. apply Hn. by split_and!.
  - intros (_ & _ & Hn) (_ & _ & Hlt). done.
Qed.

(** On numbers, [x <= y] fails exactly when [y < x] holds. *)
Lemma float_leb_false (x y : float) :
  is_nan x = false → is_nan y = false →
  (x <=? y)%float = false ↔ (y <? x)%float = true.
Proof.
  intros Hx Hy. rewrite <- not_true_iff_false, float_ltb_rank, float_leb_rank.
  split.
  - intros Hn. split_and!; [done..|].
    destruct (rank_lt_total (rank (Prim2SF y)) (rank (Prim2SF x)))
      as [Hlt|[Heq|Hgt]]; [done| |].
    + destruct Hn. split_and!; [done..|]. rewrite Heq. apply rank_lt_irrefl.
    + destruct Hn. split_and!; [done..|]. by apply rank_lt_asym.
  - intros (_ & _ & Hlt) (_ & _ & Hn). done.
Qed.

Lemma float_ltb_leb (x y : float) :
  (x <? y)%float = true → (y <=? x)%float = false.
Proof.
  rewrite float_ltb_rank. intros (Hx & Hy & Hlt).
  apply not_true_iff_false. rewrite float_leb_rank. by intros (_ & _ & Hn).
Qed.

Lemma float_leb_ltb (x y : float) :
  (x <=? y)%float = true → (y <? x)%float = false.
Proof.
  rewrite float_leb_rank. intros (Hx & Hy & Hn).
  apply not_true_iff_false. rewrite float_ltb_rank. by intros (_ & _ & Hlt).
Qed.

Lemma float_ltb_trans (x y z : float) :
  (x <? y)%float = true → (y <? z)%float = true → (x <? z)%float = true.
Proof.
  rewrite !float_ltb_rank. intros (Hx & _ & Hxy) (_ & Hz & Hyz).
  split_and!; [done..|]. by apply rank_lt_trans with (rank (Prim2SF y)).
Qed.

Lemma float_ltb_leb_trans (x y z : float) :
  (x <? y)%float = true → (y <=? z)%float = true → (x <? z)%float = true.
Proof.
  rewrite !float_ltb_rank, float_leb_rank. intros (Hx & _ & Hxy) (_ & Hz & Hyz).
  split_and!; [done..|].
  destruct (rank_lt_total (rank (Prim2SF x)) (rank (Prim2SF z))) as [Hlt|[Heq|Hgt]];
    [done| |].
  - rewrite Heq in Hxy. done.
  - destruct Hyz. by apply rank_lt_trans with (rank (Prim2SF x)).
Qed.

Lemma float_eqb_ltb (x y : float) :
  (x =? y)%float = true → (x <? y)%float = false ∧ (y <? x)%float = false.
Proof.
  rewrite float_eqb_rank. intros (Hx & Hy & Heq).
  split; apply not_true_iff_false; rewrite float_ltb_rank; intros (_ & _ & Hlt);
    rewrite Heq in Hlt; by apply rank_lt_irrefl in Hlt.
Qed.

Lemma float_eqb_leb (x y : float) :
  (x =? y)%float = true → (x <=? y)%float = true.
Proof.
  rewrite float_eqb_rank, float_leb_rank. intros (Hx & Hy & Heq).
  split_and!; [done..|]. rewrite Heq. apply rank_lt_irrefl.
Qed.

(** [n || d] is a number when [d] is. *)
Lemma num_or_not_nan (n d : float) : is_nan d = false → is_nan (Js.num_or n d) = false.
Proof.
  intros Hd. unfold Js.num_or. destruct (is_nan n) eqn:Hn; simpl; [done|].
  by destruct (n =? 0)%float.
Qed.

End float_more.

(** ** Sorting with a comparator *)

Section sort_facts.
Import Js.
Context {A : Type} (compareFn : A -> A -> float).

Lemma sort_insert_Permutation (x : A) (l : list A) :
  sort_insert compareFn x l ≡ₚ x :: l.
Proof.
  induction l as [|y l IH]; simpl; [done|].
  destruct (0 <? compareFn x y)%float; [|done].
  rewrite IH. apply Permutation_swap.
Qed.

Lemma Array_sort_Permutation (l : list A) : Array_sort compareFn l ≡ₚ l.
Proof.
  induction l as [|x l IH]; simpl; [done|].
  by rewrite sort_insert_Permutation, IH.
Qed.

(** An element that no member of [l] has to be moved in front of stays at
    the front. *)
Lemma sort_insert_head (x : A) (l : list A) :
  (∀ y, head l = Some y → no_swap compareFn x y) →
  sort_insert compareFn x l = x :: l.
Proof.
  destruct l as [|y l]; simpl; [done|].
  intros Hhead. by rewrite (Hhead y).
Qed.

(** Insertion skips a prefix of elements that all go before [x]. *)
Lemma sort_insert_app (x : A) (l1 l2 : list A) :
  Forall (λ y, (0 <? compareFn x y)%float = true) l1 →
  sort_insert compareFn x (l1 ++ l2) = l1 ++ sort_insert compareFn x l2.
Proof.
  induction 1 as [|y l1 Hy _ IH]; simpl; [done|].
  by rewrite Hy, IH.
Qed.

(** A list on which the comparator never asks for a swap of an earlier with
    a later element is left as it is. *)
Lemma Array_sort_sorted (l : list A) :
  StronglySorted (no_swap compareFn) l → Array_sort compareFn l = l.
Proof.
  induction 1 as [|x l _ IH Hx]; simpl; [done|].
  rewrite IH. apply sort_insert_head.
  intros y Hy. destruct l as [|z l]; simplify_eq/=.
  by apply Forall_cons in Hx as [? _].
Qed.

(** When "no swap asked" is a total and transitive relation on the elements
    at hand, the result is sorted by it. *)
Section sorted.
Context (P : A → Prop).
Context (Htrans : ∀ a b c, P a → P b → P c →
  no_swap compareFn a b → no_swap compareFn b c → no_swap compareFn a c).
Context (Htotal : ∀ a b, P a → P b → no_swap compareFn a b ∨ no_swap compareFn b a).

Lemma sort_insert_StronglySorted (x : A) (l : list A) :
  P x → Forall P l →
  StronglySorted (no_swap compareFn) l →
  StronglySorted (no_swap compareFn) (sort_insert compareFn x l).
Proof.
  intros Hx HP. induction 1 as [|y l Hl IH Hy]; simpl.
  - repeat constructor.
  - apply Forall_cons in HP as [HPy HPl].
    destruct (0 <? compareFn x y)%float eqn:Hxy.
    + constructor; [by apply IH|].
      rewrite sort_insert_Permutation. constructor; [|done].
      destruct (Htotal x y Hx HPy) as [Hno|Hno]; [|done].
      unfold no_swap in Hno. congruence.
    + constructor; [by constructor|]. constructor; [done|].
      apply Forall_forall. intros z Hz.
      apply (Htrans x y z); [done|done| |done|].
      * by apply (proj1 (Forall_forall _ _) HPl).
      * by apply (proj1 (Forall_forall _ _) Hy).
Qed.

Lemma Array_sort_StronglySorted (l : list A) :
  Forall P l → StronglySorted (no_swap compareFn) (Array_sort compareFn l).
Proof.
  induction 1 as [|x l Hx Hl IH]; simpl; [constructor|].
  apply sort_insert_StronglySorted; [done| |done].
  by rewrite Array_sort_Permutation.
Qed.

End sorted.

(** Stability: elements that the comparator never orders against each other
    keep their relative order. *)
Lemma sort_insert_filter (Q : A → Prop) `{!∀ x, Decision (Q x)} (x : A) (l : list A) :
  (∀ y, Q x → Q y → no_swap compareFn x y) →
  filter Q (sort_insert compareFn x l) = filter Q (x :: l).
Proof.
  intros Hties. induction l as [|y l IH]; simpl; [done|].
  destruct (0 <? compareFn x y)%float eqn:Hxy; [|done].
  rewrite filter_cons, IH, !filter_cons.
  destruct (decide (Q x)) as [Hx|Hx], (decide (Q y)) as [Hy|Hy]; try done.
  specialize (Hties y Hx Hy). unfold no_swap in Hties. congruence.
Qed.

Lemma Array_sort_filter (Q : A → Prop) `{!∀ x, Decision (Q x)} (l : list A) :
  (∀ x y, Q x → Q y → no_swap compareFn x y) →
  filter Q (Array_sort compareFn l) = filter Q l.
Proof.
  intros Hties. induction l as [|x l IH]; simpl; [done|].
  rewrite sort_insert_filter by auto.
  by rewrite !filter_cons, IH.
Qed.

End sort_facts.

(** Sorting by a two-valued rank is a stable partition. *)
Lemma Array_sort_partition {A : Type} (P : A → Prop) `{!∀ x, Decision (P x)}
    (compareFn : A → A → float) (l : list A) :
  (∀ a b, (0 <? compareFn a b)%float = true ↔ ¬ P a ∧ P b) →
  Js.Array_sort compareFn l = filter P l ++ filter (λ x, ¬ P x) l.
Proof.
  intros Hcmp. induction l as [|x l IH]; simpl; [done|].
  rewrite IH, !filter_cons. destruct (decide (P x)) as [Hx|Hx].
  - rewrite decide_False by tauto. simpl.
    apply sort_insert_head. intros y _. apply not_true_iff_false.
    rewrite Hcmp. tauto.
  - rewrite decide_True by done.
    rewrite sort_insert_app.
    + f_equal. apply sort_insert_head. intros y Hy. apply not_true_iff_false.
      rewrite Hcmp.
      apply head_Some_elem_of, list_elem_of_filter in Hy. tauto.
    + apply Forall_forall. intros y Hy%list_elem_of_filter.
      apply Hcmp. tauto.
Qed.

(** ** ChartTypeSelector: the ranking of the options *)

Section ranking.
Import Js Api ChartTypeSelector.
Context (recommendedTypes : list ChartType).

Lemma compareOptions_pos (a b : ChartOption) :
  (0 <? compareOptions recommendedTypes a b)%float = true ↔
  ¬ value a ∈ recommendedTypes ∧ value b ∈ recommendedTypes.
Proof.
  unfold compareOptions, isRecommended.
  do 2 case_bool_decide.
  - change (0 <? 0 - 0)%float with false. split; [done|tauto].
  - change (0 <? 0 - 1)%float with false. split; [done|tauto].
  - change (0 <? 1 - 0)%float with true. tauto.
  - change (0 <? 1 - 1)%float with false. split; [done|tauto].
Qed.

Lemma sortOptions_partition (options : list ChartOption) :
  sortOptions recommendedTypes options =
    filter (λ o, value o ∈ recommendedTypes) options ++
    filter (λ o, ¬ value o ∈ recommendedTypes) options.
Proof. apply Array_sort_partition, compareOptions_pos. Qed.

End ranking.

Section ranking_theorems.
Import Js Api ChartTypeSelector.

Lemma partition_precedes {A : Type} (P : A → Prop) `{!∀ x, Decision (P x)}
    (l : list A) (i j : nat) (a b : A) :
  (filter P l ++ filter (λ x, ¬ P x) l) !! i = Some a →
  (filter P l ++ filter (λ x, ¬ P x) l) !! j = Some b →
  P a → ¬ P b → (i < j)%nat.
Proof.
  intros Hi Hj Ha Hb.
  apply lookup_app_Some in Hi as [Hi|[_ Hi]]; last first.
  { apply list_elem_of_lookup_2, list_elem_of_filter in Hi. tauto. }
  apply lookup_app_Some in Hj as [Hj|[Hj _]].
  { apply list_elem_of_lookup_2, list_elem_of_filter in Hj. tauto. }
  apply lookup_lt_Some in Hi. lia.
Qed.

Lemma filter_none {A : Type} (P : A → Prop) `{!∀ x, Decision (P x)} (l : list A) :
  (∀ x, ¬ P x) → filter P l = [].
Proof.
  intros HP. induction l as [|x l IH]; [done|].
  rewrite filter_cons, decide_False; auto.
Qed.

Lemma filter_partition_l {A : Type} (P : A → Prop) `{!∀ x, Decision (P x)}
    (l : list A) :
  filter P (filter P l ++ filter (λ x, ¬ P x) l) = filter P l.
Proof.
  rewrite filter_app, list_filter_filter_r by done.
  rewrite (list_filter_filter P), (filter_none (λ x, P x ∧ ¬ P x)), app_nil_r;
    [done|tauto].
Qed.

Lemma filter_partition_r {A : Type} (P : A → Prop) `{!∀ x, Decision (P x)}
    (l : list A) :
  filter (λ x, ¬ P x) (filter P l ++ filter (λ x, ¬ P x) l) = filter (λ x, ¬ P x) l.
Proof.
  rewrite filter_app, (list_filter_filter_r (λ x, ¬ P x) (λ x, ¬ P x)) by done.
  rewrite (list_filter_filter (λ x, ¬ P x) P), (filter_none (λ x, ¬ P x ∧ P x));
    [done|tauto].
Qed.

(** C6. For every [recommendedTypes], the selector's [sortedOptions] is a
    stable partition of the registry [CHART_OPTIONS]: the recommended options
    in registry order, followed by the other options in registry order. It
    is a reordering of the registry, every recommended option stands before
    every option that is not recommended, each of the two groups keeps the
    registry's relative order, and sorting a sorted sequence again (the
    registry's or any other) with the same [recommendedTypes] changes
    nothing. *)
Theorem sortedOptions_stable_partition (recommendedTypes : list ChartType) :
  let recommended := λ o : ChartOption, value o ∈ recommendedTypes in
  let sorted := sortedOptions recommendedTypes in
  sorted = filter recommended CHART_OPTIONS ++
           filter (λ o, ¬ recommended o) CHART_OPTIONS
  ∧ sorted ≡ₚ CHART_OPTIONS
  ∧ (∀ i j a b, sorted !! i = Some a → sorted !! j = Some b →
       recommended a → ¬ recommended b → (i < j)%nat)
  ∧ filter recommended sorted = filter recommended CHART_OPTIONS
  ∧ filter (λ o, ¬ recommended o) sorted =
      filter (λ o, ¬ recommended o) CHART_OPTIONS
  ∧ sortOptions recommendedTypes sorted = sorted
  ∧ (∀ options, sortOptions recommendedTypes (sortOptions recommendedTypes options)
                = sortOptions recommendedTypes options).
Proof.
  intros recommended sorted.
  assert (Hsorted : sorted = filter recommended CHART_OPTIONS ++
                             filter (λ o, ¬ recommended o) CHART_OPTIONS)
    by apply sortOptions_partition.
  assert (Hidem : ∀ options,
             sortOptions recommendedTypes (sortOptions recommendedTypes options)
             = sortOptions recommendedTypes options).
  { intros options. rewrite !sortOptions_partition.
    by rewrite (filter_partition_l (λ o, value o ∈ recommendedTypes)),
      (filter_partition_r (λ o, value o ∈ recommendedTypes)). }
  split_and!; [done| | | | |apply Hidem|done].
  - apply Array_sort_Permutation.
  - rewrite Hsorted. apply partition_precedes.
  - rewrite Hsorted. apply filter_partition_l.
  - rewrite Hsorted. apply (filter_partition_r recommended).
Qed.

(** The ranking on a concrete recommendation list. *)
Example sortedOptions_example :
  value <$> sortedOptions [funnel; pie; table] =
  [pie; funnel; table; bar; line; area; scatter; radar; composed;
   stacked_column; stacked_bar; clustered_column; clustered_bar;
   stacked_100; waterfall].
Proof. by vm_compute. Qed.

End ranking_theorems.

(** ** Dashboard: the selection after a new result *)

Section selection.
Import Js Api Dashboard.

Lemma run_snoc (s : State) (history : list Event) (e : Event) :
  run s (history ++ [e]) = step (run s history) e.
Proof. unfold run. by rewrite foldl_app. Qed.

(** C1 (as the code has it). Whatever happened before (user picks, earlier
    queries, failed queries), once the result of a query arrives the selected
    chart type is the [type] of the new result's config ([bar] when the
    response carries no config); the config's [recommended_charts] plays no
    part, and nothing of an earlier user pick is kept: the selection is a
    function of the response alone, the effective config is the new config
    unchanged, and the selector is handed its [type]. *)
Theorem result_resets_selection_to_config_type
    (s : State) (history : list Event) (response : AnalyzeResponse) :
  let s' := run s (history ++ [Resolved response]) in
  selectedChartType s' = Some (defaultChartType response)
  ∧ (visualization_config response = None → selectedChartType s' = Some bar)
  ∧ (∀ config, visualization_config response = Some config →
       selectedChartType s' = Some (type config)
       ∧ getEffectiveConfig s' = Some config
       ∧ selectorType s' = Some (type config)).
Proof.
  intros s'. subst s'. rewrite run_snoc. simpl.
  unfold getEffectiveConfig, selectorType, defaultChartType. simpl.
  split_and!.
  - done.
  - intros Hnone. by rewrite Hnone.
  - intros config Hsome. rewrite Hsome. simpl.
    unfold defaultChartType. rewrite Hsome. by destruct config.
Qed.

(** A user pick stays selected until the next result. *)
Lemma pick_selects (s : State) (t : ChartType) :
  selectedChartType (step s (ChartTypeChange t)) = Some t.
Proof. done. Qed.

(** Submitting a query clears the selection until its result arrives. *)
Lemma submit_clears_selection (s : State) (question : string) :
  selectedChartType (step s (Submit question)) = None.
Proof. done. Qed.

(** C1 (as stated) fails: after a pick of [pie], a new result typed [bar]
    that recommends [line] first leaves [bar] selected, not [line]. *)
Lemma result_selection_is_not_first_recommended :
  let config := Examples.bar_recommending_line in
  let s' := run initial [ChartTypeChange pie; Submit "next";
                         Resolved (Examples.response_of config)] in
  selectedChartType s' = Some bar
  ∧ Spec.currentAfterResult config = line
  ∧ selectedChartType s' ≠ Some (Spec.currentAfterResult config).
Proof. by vm_compute. Qed.

End selection.

(** ** Objects *)

Section object_facts.
Import Js.

Lemma obj_lookup_set (k k' : string) (v : JsVal) (o : Obj) :
  obj_lookup k' (obj_set k v o) =
    if decide (k' = k) then Some v else obj_lookup k' o.
Proof.
  induction o as [|[k0 v0] o IH]; simpl.
  - by repeat case_decide.
  - by repeat (case_decide; simplify_eq/=).
Qed.

Lemma get_set (k k' : string) (v : JsVal) (o : Obj) :
  get (obj_set k v o) k' = if decide (k' = k) then v else get o k'.
Proof. unfold get. rewrite obj_lookup_set. by case_decide. Qed.

Lemma get_set_eq (k : string) (v : JsVal) (o : Obj) : get (obj_set k v o) k = v.
Proof. by rewrite get_set, decide_True. Qed.

Lemma get_set_ne (k k' : string) (v : JsVal) (o : Obj) :
  k' ≠ k → get (obj_set k v o) k' = get o k'.
Proof. intros. by rewrite get_set, decide_False. Qed.

(** [Object.keys] lists every field once per entry, whatever the order. *)
Lemma Object_keys_Permutation (o : Obj) : Object_keys o ≡ₚ o.*1.
Proof.
  unfold Object_keys. rewrite merge_sort_Permutation.
  induction (o.*1) as [|k keys IH]; [done|].
  rewrite filter_cons. case_decide as Hk.
  - csimpl. rewrite Hk. csimpl. rewrite <- Permutation_middle. by rewrite IH.
  - csimpl. destruct (array_index k) as [n|]; [|done]. csimpl. by rewrite IH.
Qed.

Lemma elem_of_Object_keys (k : string) (o : Obj) : k ∈ Object_keys o ↔ k ∈ o.*1.
Proof. by rewrite Object_keys_Permutation. Qed.


Lemma get_missing (k : string) (o : Obj) :
  k ∉ Object_keys o → get o k = VUndefined.
Proof.
  rewrite elem_of_Object_keys.
  unfold get. induction o as [|[k0 v0] o IH]; simpl; [done|].
  rewrite not_elem_of_cons. intros [? ?]. rewrite decide_False by done. auto.
Qed.

Lemma Object_keys_set (k : string) (v : JsVal) (o : Obj) :
  ∀ k', k' ∈ Object_keys (obj_set k v o) ↔ k' = k ∨ k' ∈ Object_keys o.
Proof.
  intros k'. rewrite !elem_of_Object_keys. revert k'.
  induction o as [|[k0 v0] o IH]; intros k'; simpl.
  - rewrite list_elem_of_singleton, elem_of_nil. tauto.
  - case_decide; simplify_eq/=; rewrite !elem_of_cons, ?IH; tauto.
Qed.

End object_facts.

(** ** ChartRenderer: the waterfall transform *)

Section waterfall.
Import Js Api ChartRenderer.
Context {rt : JsRuntime} (config : VisualizationConfig).

Lemma number_or_0_not_nan (v : JsVal) : is_nan (number_or_0 v) = false.
Proof. by apply num_or_not_nan. Qed.

Lemma number_or_0_NaN (v : JsVal) :
  is_nan (ToNumber v) = true → number_or_0 v = 0%float.
Proof. unfold number_or_0, num_or. by intros ->. Qed.

Lemma number_or_0_zero (v : JsVal) :
  (ToNumber v =? 0)%float = true → number_or_0 v = 0%float.
Proof. unfold number_or_0, num_or. intros ->. by rewrite orb_true_r. Qed.

Lemma number_or_0_number (v : JsVal) :
  is_nan (ToNumber v) = false → (ToNumber v =? 0)%float = false →
  number_or_0 v = ToNumber v.
Proof. unfold number_or_0, num_or. by intros -> ->. Qed.

Lemma number_or_0_missing (row : Obj) (key : string) :
  key ∉ Object_keys row → number_or_0 (get row key) = 0%float.
Proof. intros Hkey. by rewrite get_missing. Qed.

Lemma waterfallEntry_total (runningTotal : float) (row : Obj) :
  (waterfallEntry config runningTotal row).2 =
    (runningTotal + number_or_0 (get row (getYKey config)))%float.
Proof. done. Qed.

Lemma waterfallEntry_fields (runningTotal : float) (row : Obj) :
  let value := number_or_0 (get row (getYKey config)) in
  let entry := (waterfallEntry config runningTotal row).1 in
  get entry "start" = VNum runningTotal
  ∧ get entry "end" = VNum (runningTotal + value)%float
  ∧ get entry "value" = VNum value
  ∧ get entry "name" = get row (str_or (xKey config) "name")
  ∧ get entry "fill" = VStr (if (0 <=? value)%float then "#10b981" else "#ef4444")
  ∧ (∀ k, k ∉ ["name"; "value"; "start"; "end"; "fill"] → get entry k = get row k).
Proof.
  intros value entry. subst entry. unfold waterfallEntry, obj_extend. simpl.
  split_and!.
  - by rewrite get_set_ne, get_set_ne, get_set_eq.
  - by rewrite get_set_ne, get_set_eq.
  - by rewrite get_set_ne, get_set_ne, get_set_ne, get_set_eq.
  - by rewrite get_set_ne, get_set_ne, get_set_ne, get_set_ne, get_set_eq.
  - by rewrite get_set_eq.
  - intros k Hk. rewrite !not_elem_of_cons in Hk.
    by rewrite !get_set_ne by tauto.
Qed.

Lemma waterfallRows_length (runningTotal : float) (chartData : list Obj) :
  length (waterfallRows config runningTotal chartData).1 = length chartData.
Proof.
  revert runningTotal. induction chartData as [|row rest IH]; intros t; simpl; [done|].
  specialize (IH (t + number_or_0 (get row (getYKey config)))%float).
  destruct (waterfallRows _ _ rest). simpl in *. by rewrite IH.
Qed.

(** The running total after the rows is the values added to it one by one,
    in the order of the rows. *)
Lemma waterfallRows_total (runningTotal : float) (chartData : list Obj) :
  (waterfallRows config runningTotal chartData).2 =
    foldl PrimFloat.add runningTotal
      ((λ row, number_or_0 (get row (getYKey config))) <$> chartData).
Proof.
  revert runningTotal. induction chartData as [|row rest IH]; intros t; simpl; [done|].
  specialize (IH (t + number_or_0 (get row (getYKey config)))%float).
  destruct (waterfallRows _ _ rest). simpl in *. by rewrite IH.
Qed.

Lemma waterfallRows_lookup (runningTotal : float) (chartData : list Obj)
    (i : nat) (row : Obj) :
  chartData !! i = Some row →
  (waterfallRows config runningTotal chartData).1 !! i =
    Some (waterfallEntry config
            (foldl PrimFloat.add runningTotal
               (take i ((λ row, number_or_0 (get row (getYKey config)))
                        <$> chartData)))
            row).1.
Proof.
  revert runningTotal i.
  induction chartData as [|row0 rest IH]; intros t i Hi; [done|].
  simpl. specialize (IH (t + number_or_0 (get row0 (getYKey config)))%float).
  destruct (waterfallRows _ _ rest) as [entries t'].
  destruct i as [|i]; simplify_eq/=; [done|].
  by rewrite (IH i Hi).
Qed.

Lemma waterfallData_split (chartData : list Obj) :
  waterfallData config chartData =
    (waterfallRows config 0%float chartData).1 ++
    [[("name", VStr "Total");
      ("value", VNum (Spec.sum ((λ row, number_or_0 (get row (getYKey config)))
                                <$> chartData)));
      ("start", VNum 0%float);
      ("end", VNum (Spec.sum ((λ row, number_or_0 (get row (getYKey config)))
                              <$> chartData)));
      ("fill", VStr "#667eea")]].
Proof.
  unfold waterfallData.
  pose proof (waterfallRows_total 0%float chartData) as Htotal.
  destruct (waterfallRows config 0%float chartData) as [entries total].
  simpl in *. by rewrite Htotal.
Qed.

Lemma waterfallData_lookup (chartData : list Obj) (i : nat) (row : Obj) :
  chartData !! i = Some row →
  waterfallData config chartData !! i =
    Some (waterfallEntry config
            (Spec.sum (take i ((λ row, number_or_0 (get row (getYKey config)))
                               <$> chartData)))
            row).1.
Proof.
  intros Hi. rewrite waterfallData_split.
  by apply lookup_app_l_Some, waterfallRows_lookup.
Qed.

Lemma waterfallData_total (chartData : list Obj) :
  waterfallData config chartData !! length chartData =
    Some [("name", VStr "Total");
          ("value", VNum (Spec.sum ((λ row, number_or_0 (get row (getYKey config)))
                                    <$> chartData)));
          ("start", VNum 0%float);
          ("end", VNum (Spec.sum ((λ row, number_or_0 (get row (getYKey config)))
                                  <$> chartData)));
          ("fill", VStr "#667eea")].
Proof.
  rewrite waterfallData_split.
  rewrite lookup_app_r by by rewrite waterfallRows_length.
  by rewrite waterfallRows_length, Nat.sub_diag.
Qed.

(** One more value: one more addition. *)
Lemma sum_snoc (l : list float) (x : float) :
  Spec.sum (l ++ [x]) = (Spec.sum l + x)%float.
Proof. unfold Spec.sum. by rewrite foldl_snoc. Qed.

Lemma sum_take_S (l : list float) (i : nat) (x : float) :
  l !! i = Some x → Spec.sum (take (S i) l) = (Spec.sum (take i l) + x)%float.
Proof. intros Hi. by rewrite (take_S_r _ _ x), sum_snoc. Qed.

End waterfall.

Section waterfall_theorems.
Import Js Api ChartRenderer.
Context {rt : JsRuntime}.

(** C2. The waterfall transform walks the rows in their order with a running
    total that starts at 0 and to which the value of each row is added in
    turn, in the arithmetic of JavaScript numbers (doubles, every addition
    rounded). With [v] the numeric value of a row at the primary key
    ([Number(..) || 0], so 0 when it is missing or not numeric), entry [i]
    has [start] = the running total before row [i], [end] = that total plus
    [v], which is the running total after row [i], [value] = [v], the row's
    name, and the green fill when [v >= 0] and the red one when [v < 0].
    Exactly one more entry follows the rows: it is named "Total", starts at 0,
    and has the final running total as [end] and [value], in a fill that is
    neither the green nor the red. For the values 5, -3, 2 the (start, end)
    pairs are (0,5), (5,2), (2,4) and the Total entry has value 4; for the
    values 0.1, 0.2 the last row ends at 0.30000000000000004, and adding 1 to
    2^53 leaves 2^53. *)
Theorem waterfallData_running_total
    (config : VisualizationConfig) (chartData : list Obj) :
  let v := λ row, number_or_0 (get row (getYKey config)) in
  let values := v <$> chartData in
  let runningTotal := λ i, Spec.sum (take i values) in
  let out := waterfallData config chartData in
  length out = S (length chartData)
  ∧ runningTotal 0%nat = 0%float
  ∧ (∀ i row, chartData !! i = Some row →
       runningTotal (S i) = (runningTotal i + v row)%float)
  ∧ (∀ i row, chartData !! i = Some row →
       ∃ entry, out !! i = Some entry
         ∧ get entry "start" = VNum (runningTotal i)
         ∧ get entry "end" = VNum (runningTotal i + v row)%float
         ∧ get entry "end" = VNum (runningTotal (S i))
         ∧ get entry "value" = VNum (v row)
         ∧ get entry "name" = get row (str_or (xKey config) "name")
         ∧ get entry "fill" =
             VStr (if (0 <=? v row)%float then "#10b981" else "#ef4444")
         ∧ ((0 <=? v row)%float = false ↔ (v row <? 0)%float = true))
  ∧ (∀ row, is_nan (ToNumber (get row (getYKey config))) = true → v row = 0%float)
  ∧ (∀ row, getYKey config ∉ Object_keys row → v row = 0%float)
  ∧ (∀ row, is_nan (ToNumber (get row (getYKey config))) = false →
            (ToNumber (get row (getYKey config)) =? 0)%float = false →
            v row = ToNumber (get row (getYKey config)))
  ∧ out !! length chartData =
      Some [("name", VStr "Total");
            ("value", VNum (runningTotal (length chartData)));
            ("start", VNum 0%float);
            ("end", VNum (runningTotal (length chartData)));
            ("fill", VStr "#667eea")]
  ∧ "#667eea" ≠ "#10b981" ∧ "#667eea" ≠ "#ef4444"
  ∧ waterfallData Examples.waterfall_config Examples.waterfall_rows =
      [ [("step", VStr "Sales"); ("delta", Examples.num 5);
         ("name", VStr "Sales"); ("value", Examples.num 5);
         ("start", Examples.num 0); ("end", Examples.num 5);
         ("fill", VStr "#10b981")];
        [("step", VStr "Refunds"); ("delta", Examples.num (-3));
         ("name", VStr "Refunds"); ("value", Examples.num (-3));
         ("start", Examples.num 5); ("end", Examples.num 2);
         ("fill", VStr "#ef4444")];
        [("step", VStr "Upsell"); ("delta", Examples.num 2);
         ("name", VStr "Upsell"); ("value", Examples.num 2);
         ("start", Examples.num 2); ("end", Examples.num 4);
         ("fill", VStr "#10b981")];
        [("name", VStr "Total"); ("value", Examples.num 4);
         ("start", Examples.num 0); ("end", Examples.num 4);
         ("fill", VStr "#667eea")] ]
  ∧ (λ entry, (get entry "start", get entry "end")) <$>
      waterfallData Examples.waterfall_config Examples.waterfall_tenths =
      [ (VNum 0, VNum Examples.tenth);
        (VNum Examples.tenth, VNum 0x1.3333333333334p-2);
        (VNum 0, VNum 0x1.3333333333334p-2) ]
  ∧ (λ entry, (get entry "start", get entry "end")) <$>
      waterfallData Examples.waterfall_config Examples.waterfall_large =
      [ (VNum 0, VNum 9007199254740992);
        (VNum 9007199254740992, VNum 9007199254740992);
        (VNum 0, VNum 9007199254740992) ].
Proof.
  intros v values runningTotal out.
  assert (Hstep : ∀ i row, chartData !! i = Some row →
            runningTotal (S i) = (runningTotal i + v row)%float).
  { intros i row Hi. apply sum_take_S. subst values. by rewrite list_lookup_fmap, Hi. }
  split_and!; [| done | done | | | | | |done|done|by vm_compute..].
  - subst out. by rewrite waterfallData_split, length_app, waterfallRows_length,
      Nat.add_1_r.
  - intros i row Hi.
    destruct (waterfallEntry_fields config (runningTotal i) row)
      as (Hstart & Hend & Hvalue & Hname & Hfill & _).
    exists (waterfallEntry config (runningTotal i) row).1.
    split; [by apply waterfallData_lookup|].
    split_and!; [done|done| |done|done|done|].
    + rewrite Hend. f_equal. symmetry. by apply Hstep.
    + apply float_leb_false; [done|apply number_or_0_not_nan].
  - intros row. apply number_or_0_NaN.
  - intros row. apply number_or_0_missing.
  - intros row. apply number_or_0_number.
  - subst out runningTotal values. cbv beta.
    rewrite waterfallData_total.
    by rewrite take_ge by (rewrite length_fmap; lia).
Qed.

End waterfall_theorems.

(** ** ChartRenderer: the 100% stacked transform *)

Section stacked.
Import Js Api ChartRenderer.

Lemma get_foldl_set (f : string → JsVal) (keys : list string) (o : Obj) (k : string) :
  get (foldl (λ acc key, obj_set key (f key) acc) o keys) k =
    if decide (k ∈ keys) then f k else get o k.
Proof.
  revert o. induction keys as [|key keys IH]; intros o; simpl.
  - repeat case_decide; set_unfold; done.
  - rewrite IH, get_set.
    destruct (decide (k ∈ keys)) as [Hin|Hnin].
    { by rewrite decide_True by (apply elem_of_cons; by right). }
    destruct (decide (k = key)) as [->|Hne].
    { by rewrite decide_True by (apply elem_of_cons; by left). }
    rewrite decide_False; [done|]. rewrite elem_of_cons. tauto.
Qed.

Lemma keys_foldl_set (f : string → JsVal) (keys : list string) (o : Obj) (k : string) :
  k ∈ Object_keys (foldl (λ acc key, obj_set key (f key) acc) o keys) ↔
  k ∈ keys ∨ k ∈ Object_keys o.
Proof.
  revert o. induction keys as [|key keys IH]; intros o; simpl.
  - rewrite elem_of_nil. tauto.
  - rewrite IH, Object_keys_set, elem_of_cons. tauto.
Qed.

Context {rt : JsRuntime}.

(** The total of a row: its metric values added up in the order of the
    metric keys. *)
Lemma percentRow_total (config : VisualizationConfig) (row : Obj) :
  foldl (λ sum key, (sum + number_or_0 (get row key))%float) 0%float (yKeys config) =
  Spec.sum ((λ key, number_or_0 (get row key)) <$> yKeys config).
Proof. unfold Spec.sum. by rewrite foldl_fmap. Qed.

Lemma percentRow_get (config : VisualizationConfig) (row : Obj) (k : string) :
  let v := λ key, number_or_0 (get row key) in
  let total := Spec.sum (v <$> yKeys config) in
  get (percentRow config row) k =
    if decide (k ∈ yKeys config)
    then VNum (if (0 <? total)%float then (v k / total * 100)%float else 0%float)
    else if decide (k = str_or (xKey config) "name") then get row k
    else VUndefined.
Proof.
  intros v total. unfold percentRow.
  rewrite percentRow_total.
  rewrite (get_foldl_set (λ key, VNum (if (0 <? total)%float
                                       then (v key / total * 100)%float
                                       else 0%float))).
  case_decide; [done|].
  unfold get at 1. simpl. by case_decide; simplify_eq/=.
Qed.

Lemma percentRow_keys (config : VisualizationConfig) (row : Obj) (k : string) :
  k ∈ Object_keys (percentRow config row) ↔
  k = str_or (xKey config) "name" ∨ k ∈ yKeys config.
Proof.
  unfold percentRow. rewrite percentRow_total.
  rewrite keys_foldl_set, elem_of_Object_keys. simpl.
  rewrite list_elem_of_singleton. tauto.
Qed.

End stacked.

Section stacked_theorems.
Import Js Api ChartRenderer.
Context {rt : JsRuntime}.

(** C3. In the 100% stacked transform, the total of a row is the sum over the
    metric keys, in their order, of the row's numeric values, a value that is
    missing or not numeric counting as 0; sum, quotient and product are those
    of JavaScript numbers (doubles, each operation rounded). The output row
    holds, at each metric key, the value divided by the total, times 100,
    when the total is greater than 0, and 0 at every metric key otherwise, in
    particular when the total is 0: nothing is divided by a total that is not
    positive. The row [{cat:'A', x:10, y:30}] with metric keys [x, y] becomes
    [{cat:'A', x:25, y:75}], a row whose metrics are all 0 or not numeric
    gets 0 everywhere, and [{x:1, y:2}] gets 33.33333333333333 and
    66.66666666666666. *)
Theorem percentData_percentages
    (config : VisualizationConfig) (chartData : list Obj) :
  let v := λ (row : Obj) key, number_or_0 (get row key) in
  let total := λ row, Spec.sum (v row <$> yKeys config) in
  (∀ i row, chartData !! i = Some row →
     ∃ out, percentData config chartData !! i = Some out
       ∧ (∀ key, key ∈ yKeys config →
            get out key =
              VNum (if (0 <? total row)%float
                    then (v row key / total row * 100)%float else 0%float))
       ∧ ((0 <? total row)%float = true → ∀ key, key ∈ yKeys config →
            get out key = VNum (v row key / total row * 100)%float)
       ∧ ((total row =? 0)%float = true → ∀ key, key ∈ yKeys config →
            get out key = VNum 0%float)
       ∧ ((0 <? total row)%float = false → ∀ key, key ∈ yKeys config →
            get out key = VNum 0%float))
  ∧ (∀ row, total row =
       foldl (λ sum key, (sum + v row key)%float) 0%float (yKeys config))
  ∧ (∀ row key, is_nan (ToNumber (get row key)) = true → v row key = 0%float)
  ∧ (∀ row key, key ∉ Object_keys row → v row key = 0%float)
  ∧ (∀ row key, is_nan (ToNumber (get row key)) = false →
       (ToNumber (get row key) =? 0)%float = false →
       v row key = ToNumber (get row key))
  ∧ percentData Examples.stacked_config [Examples.stacked_row] =
      [[("cat", VStr "A"); ("x", Examples.num 25); ("y", Examples.num 75)]]
  ∧ percentData Examples.stacked_config [Examples.stacked_row_zero] =
      [[("cat", VStr "B"); ("x", Examples.num 0); ("y", Examples.num 0)]]
  ∧ percentData Examples.stacked_config [Examples.stacked_row_thirds] =
      [[("cat", VStr "C"); ("x", VNum 0x1.0aaaaaaaaaaaap+5);
        ("y", VNum 0x1.0aaaaaaaaaaaap+6)]]
  ∧ (0x1.0aaaaaaaaaaaap+5 + 0x1.0aaaaaaaaaaaap+6 <? 100)%float = true.
Proof.
  intros v total. split_and!; [| | | | |by vm_compute..].
  - intros i row Hi. exists (percentRow config row).
    split; [by unfold percentData; rewrite list_lookup_fmap, Hi|].
    assert (Hkey : ∀ key, key ∈ yKeys config →
              get (percentRow config row) key =
                VNum (if (0 <? total row)%float
                      then (v row key / total row * 100)%float else 0%float)).
    { intros key Hin. by rewrite percentRow_get, decide_True. }
    split_and!; [done| | |].
    + intros Hpos key Hin. by rewrite (Hkey key Hin), Hpos.
    + intros Hzero key Hin. rewrite (Hkey key Hin).
      by destruct (float_eqb_ltb _ _ Hzero) as [_ ->].
    + intros Hnpos key Hin. by rewrite (Hkey key Hin), Hnpos.
  - intros row. symmetry. apply percentRow_total.
  - intros row key. apply number_or_0_NaN.
  - intros row key. apply number_or_0_missing.
  - intros row key. apply number_or_0_number.
Qed.

(** C4 (as the code has it). The 100% stacked transform keeps the rows in
    their order, one output row per input row. An output row is built afresh:
    its keys are the category key ([config.xKey], or ["name"]) and the metric
    keys, nothing else. The category key keeps the input row's value (unless
    it is itself a metric key); any other key of the input row that is not a
    metric key is absent from the output row. *)
Theorem percentData_keeps_order_and_category
    (config : VisualizationConfig) (chartData : list Obj) :
  let category := str_or (xKey config) "name" in
  length (percentData config chartData) = length chartData
  ∧ (∀ i, percentData config chartData !! i = percentRow config <$> chartData !! i)
  ∧ (∀ row k, k ∈ Object_keys (percentRow config row) ↔
              k = category ∨ k ∈ yKeys config)
  ∧ (∀ row, category ∉ yKeys config →
            get (percentRow config row) category = get row category)
  ∧ (∀ row k, k ≠ category → k ∉ yKeys config →
              (k ∉ Object_keys (percentRow config row))
              ∧ get (percentRow config row) k = VUndefined).
Proof.
  intros category. split_and!.
  - apply length_fmap.
  - intros i. apply list_lookup_fmap.
  - intros row k. apply percentRow_keys.
  - intros row Hcat. rewrite percentRow_get, decide_False, decide_True; done.
  - intros row k Hk Hmetric. split.
    + rewrite percentRow_keys. tauto.
    + rewrite percentRow_get, !decide_False; done.
Qed.

(** C4 (as stated) fails: the column [region] of the input row is not a
    metric key, and the output row does not have it. *)
Lemma percentData_drops_other_columns :
  let config := Examples.stacked_config in
  let row := Examples.stacked_row_region in
  (∀ rt : JsRuntime,
     percentData config [row] =
       [[("cat", VStr "A"); ("x", Examples.num 25); ("y", Examples.num 75)]])
  ∧ "region" ∈ Object_keys row
  ∧ ("region" ∉ yKeys config)
  ∧ get row "region" = VStr "EU"
  ∧ (∀ rt : JsRuntime, get (percentRow config row) "region" = VUndefined)
  ∧ (∀ rt : JsRuntime, get (percentRow config row) "region" ≠ get row "region").
Proof.
  split_and!.
  - intros rt'. by vm_compute.
  - by apply (bool_decide_unpack _).
  - by apply (bool_decide_unpack _).
  - done.
  - intros rt'. by rewrite percentRow_get.
  - intros rt'. by rewrite percentRow_get.
Qed.

End stacked_theorems.

(** ** ChartRenderer: the funnel transform *)

Section funnel.
Import Js Api ChartRenderer.

Lemma StronglySorted_weaken {A : Type} (R R' : relation A) (l : list A) :
  (∀ a b, a ∈ l → b ∈ l → R a b → R' a b) → StronglySorted R l → StronglySorted R' l.
Proof.
  intros HR Hsorted. induction Hsorted as [|x l _ IH Hx]; constructor.
  - apply IH. intros a b Ha Hb. apply HR; by apply elem_of_cons; right.
  - apply Forall_forall. intros y Hy. apply HR.
    + by apply elem_of_cons; left.
    + by apply elem_of_cons; right.
    + by apply (proj1 (Forall_forall _ _) Hx).
Qed.

(** The funnel's comparator asks for no swap of [a] and [b] exactly when [b]
    is not larger than [a]. *)
Lemma funnel_no_swap (a b : FunnelEntry) :
  is_nan (value a) = false → is_nan (value b) = false →
  no_swap (λ a b, (value b - value a)%float) a b ↔ (value b <=? value a)%float = true.
Proof.
  intros Ha Hb. unfold no_swap. rewrite float_sub_pos by done.
  by apply float_ltb_false.
Qed.

Lemma funnel_no_swap_trans (a b c : FunnelEntry) :
  is_nan (value a) = false → is_nan (value b) = false → is_nan (value c) = false →
  no_swap (λ a b, (value b - value a)%float) a b →
  no_swap (λ a b, (value b - value a)%float) b c →
  no_swap (λ a b, (value b - value a)%float) a c.
Proof.
  intros Ha Hb Hc. rewrite !funnel_no_swap by done. intros Hab Hbc.
  by apply float_leb_trans with (value b).
Qed.

Lemma funnel_no_swap_total (a b : FunnelEntry) :
  is_nan (value a) = false → is_nan (value b) = false →
  no_swap (λ a b, (value b - value a)%float) a b
  ∨ no_swap (λ a b, (value b - value a)%float) b a.
Proof.
  intros Ha Hb. rewrite !funnel_no_swap by done.
  destruct (float_leb_total (value a) (value b) Ha Hb); auto.
Qed.

(** Entries that compare equal are never swapped. *)
Lemma funnel_no_swap_equal (a b : FunnelEntry) :
  (value a =? value b)%float = true →
  no_swap (λ a b, (value b - value a)%float) a b.
Proof.
  intros Heq. pose proof Heq as (Ha & Hb & _)%float_eqb_rank.
  unfold no_swap. rewrite float_sub_pos by done.
  by destruct (float_eqb_ltb _ _ Heq).
Qed.

Lemma color_in_palette (index : nat) :
  COLORS !! (index mod 8)%nat = Some (color index).
Proof.
  unfold color. change (length COLORS) with 8%nat.
  assert (Hlt : (index mod 8 < length COLORS)%nat).
  { change (length COLORS) with 8%nat. apply Nat.mod_upper_bound. lia. }
  apply lookup_lt_is_Some in Hlt as [c Hc]. by rewrite Hc.
Qed.

Context {rt : JsRuntime}.

(** The values of the funnel's entries are numbers. *)
Lemma funnelEntries_numbers (config : VisualizationConfig) (chartData : list Obj) :
  Forall (λ e, is_nan (value e) = false) (funnelEntries config chartData).
Proof.
  apply Forall_forall. intros e He.
  apply elem_of_lookup_imap in He as (i & row & -> & _).
  apply number_or_0_not_nan.
Qed.

Lemma funnelData_Permutation (config : VisualizationConfig) (chartData : list Obj) :
  funnelData config chartData ≡ₚ funnelEntries config chartData.
Proof. apply Array_sort_Permutation. Qed.

Lemma funnelData_numbers (config : VisualizationConfig) (chartData : list Obj) :
  Forall (λ e, is_nan (value e) = false) (funnelData config chartData).
Proof. rewrite funnelData_Permutation. apply funnelEntries_numbers. Qed.

(** The funnel's entries come out with no entry before one of larger
    value. *)
Lemma funnelData_sorted (config : VisualizationConfig) (chartData : list Obj) :
  StronglySorted (λ a b, (value b <=? value a)%float = true)
    (funnelData config chartData).
Proof.
  pose proof (funnelData_numbers config chartData) as Hnum.
  eapply StronglySorted_weaken;
    [|apply (Array_sort_StronglySorted (λ a b, (value b - value a)%float)
               (λ e, is_nan (value e) = false)
               funnel_no_swap_trans funnel_no_swap_total),
             funnelEntries_numbers].
  intros a b Ha Hb. apply funnel_no_swap.
  - by apply (proj1 (Forall_forall _ _) Hnum).
  - by apply (proj1 (Forall_forall _ _) Hnum).
Qed.

(** C5. The funnel transform maps row [i] to an entry with the row's name
    ([String] of the value at [config.xKey], and at the key ["name"] when
    [config.xKey] is absent or empty), its numeric value at the primary key
    (0 when missing or not numeric) and the palette colour at index
    [i mod 8], and then sorts the entries by value, largest first: no entry
    stands before one of a larger value. The sort only reorders: the result
    is a permutation of the entries, so each one keeps the colour its row
    index gave it. When all values are equal (more generally, when no entry
    is followed by one of a larger value) the order of the rows is kept as
    well, and in any case entries of equal value stay in the order of their
    rows. Values 3, 9, 1 come out as 9, 3, 1, with the colours of rows 1, 0,
    2, both when the names are read at a configured key and when they are
    read at the default key ["name"]. *)
Theorem funnelData_sorted_descending
    (config : VisualizationConfig) (chartData : list Obj) :
  let nameKey := str_or (xKey config) "name" in
  let entry := λ (i : nat) (row : Obj),
    {| name := ToString (get row nameKey);
       value := number_or_0 (get row (getYKey config));
       fill := color i |} in
  let out := funnelData config chartData in
  (∀ i, funnelEntries config chartData !! i = entry i <$> chartData !! i)
  ∧ (xKey config = None ∨ xKey config = Some "" → nameKey = "name")
  ∧ (∀ key, xKey config = Some key → key ≠ "" → nameKey = key)
  ∧ (∀ i row, is_nan (ToNumber (get row (getYKey config))) = true
              ∨ getYKey config ∉ Object_keys row →
              value (entry i row) = 0%float)
  ∧ (∀ i row, is_nan (ToNumber (get row (getYKey config))) = false →
              (ToNumber (get row (getYKey config)) =? 0)%float = false →
              value (entry i row) = ToNumber (get row (getYKey config)))
  ∧ (∀ i, COLORS !! (i mod 8)%nat = Some (color i))
  ∧ out ≡ₚ funnelEntries config chartData
  ∧ (∀ e, e ∈ out ↔ ∃ i row, chartData !! i = Some row ∧ e = entry i row)
  ∧ StronglySorted (λ a b, (value b <=? value a)%float = true) out
  ∧ (∀ v, filter (λ e, (value e =? v)%float = true) out =
          filter (λ e, (value e =? v)%float = true) (funnelEntries config chartData))
  ∧ ((∀ a b, a ∈ funnelEntries config chartData →
             b ∈ funnelEntries config chartData →
             (value a =? value b)%float = true) →
     out = funnelEntries config chartData)
  ∧ (StronglySorted (λ a b, (value b <=? value a)%float = true)
       (funnelEntries config chartData) →
     out = funnelEntries config chartData)
  ∧ funnelData Examples.funnel_config Examples.funnel_rows =
      [ {| name := "Visit"; value := 9; fill := "#764ba2" |};
        {| name := "Trial"; value := 3; fill := "#667eea" |};
        {| name := "Paid"; value := 1; fill := "#10b981" |} ]
  ∧ funnelData Examples.funnel_default_config Examples.funnel_named_rows =
      [ {| name := "Visit"; value := 9; fill := "#764ba2" |};
        {| name := "Trial"; value := 3; fill := "#667eea" |};
        {| name := "Paid"; value := 1; fill := "#10b981" |} ]
  ∧ funnelData Examples.funnel_empty_key_config Examples.funnel_named_rows =
      [ {| name := "Trial"; value := 0; fill := "#667eea" |};
        {| name := "Visit"; value := 0; fill := "#764ba2" |};
        {| name := "Paid"; value := 0; fill := "#10b981" |} ].
Proof.
  intros nameKey entry out.
  assert (Hperm : out ≡ₚ funnelEntries config chartData)
    by apply funnelData_Permutation.
  pose proof (funnelEntries_numbers config chartData) as Hnum.
  assert (Hkeep : StronglySorted (λ a b, (value b <=? value a)%float = true)
                    (funnelEntries config chartData) →
                  out = funnelEntries config chartData).
  { intros Hsorted. apply Array_sort_sorted.
    eapply StronglySorted_weaken; [|exact Hsorted].
    intros a b Ha Hb. apply funnel_no_swap.
    - by apply (proj1 (Forall_forall _ _) Hnum).
    - by apply (proj1 (Forall_forall _ _) Hnum). }
  split_and!; [| | | | | |done| | | | |done|by vm_compute..].
  - intros i. apply list_lookup_imap.
  - subst nameKey. by intros [-> | ->].
  - subst nameKey. intros key -> Hkey. by destruct key.
  - intros i row [Hnan|Hmissing]; simpl.
    + by apply number_or_0_NaN.
    + by apply number_or_0_missing.
  - intros i row. simpl. apply number_or_0_number.
  - apply color_in_palette.
  - intros e. rewrite Hperm. unfold funnelEntries.
    rewrite elem_of_lookup_imap.
    split; intros (i & row & H1 & H2); exists i, row; done.
  - apply funnelData_sorted.
  - intros v. apply (Array_sort_filter _ (λ e, (value e =? v)%float = true)).
    intros a b Ha Hb. apply funnel_no_swap_equal.
    apply float_eqb_rank in Ha as (Ha1 & Hv & Ha2).
    apply float_eqb_rank in Hb as (Hb1 & _ & Hb2).
    apply float_eqb_rank. split_and!; [done..|]. by rewrite Ha2, Hb2.
  - intros Hequal. apply Hkeep.
    assert (Hall : ∀ l : list FunnelEntry,
              (∀ a b, a ∈ l → b ∈ l → (value a =? value b)%float = true) →
              StronglySorted (λ a b, (value b <=? value a)%float = true) l).
    { clear. induction l as [|x l IH]; intros Hequal; constructor.
      - apply IH. intros a b Ha Hb. apply Hequal; apply elem_of_cons; by right.
      - apply Forall_forall. intros y Hy.
        assert (Hyx : (value y =? value x)%float = true).
        { apply Hequal; apply elem_of_cons; auto. }
        apply float_eqb_leb. exact Hyx. }
    by apply Hall.
Qed.

End funnel.

(** ** ChartRenderer: axis ticks of the composed chart *)

Section ticks.
Import Js Api ChartRenderer.
Context {rt : JsRuntime}.

(** [toFixed] rounds the exact value of the double: a tie goes to the larger
    digit, a decimal that the double lies just below is rounded down, the
    sign is kept on a negative value that rounds to zero, and [-0] prints
    without a sign. *)
Example toFixed_examples :
  toFixed 1 120 = "120.0"
  ∧ toFixed 1 (-3) = "-3.0"
  ∧ toFixed 1 (5 / 4) = "1.3"
  ∧ toFixed 0 (5 / 2) = "3"
  ∧ toFixed 2 (1 / 8) = "0.13"
  ∧ toFixed 1 (- (1 / 32)) = "-0.0"
  ∧ toFixed 1 (-0) = "0.0"
  ∧ toFixed 0 999 = "999"
  ∧ toFixed 2 (1005 / 1000) = "1.00"
  ∧ toFixed 1 (1450 / 1000) = "1.4"
  ∧ toFixed 1 123456789012345683968 = "123456789012345683968.0"
  ∧ toFixed 2 nan = NumberToString nan
  ∧ toFixed 2 1e21 = NumberToString 1e21.
Proof. split_and!; by vm_compute. Qed.

(** C7 (as the code has it). On the composed chart the left (primary) axis
    formats a tick [value >= 1,000,000] as [value / 1,000,000] with one
    decimal and "M", a tick [1,000 <= value < 1,000,000] as [value / 1,000]
    with one decimal and "K", and every smaller tick, negative ones whatever
    their magnitude, as the value with no decimals. The right (secondary)
    axis formats a tick in [0, 100] with one decimal and "%", a tick
    [value >= 1,000] as [value / 1,000] with one decimal and "K" (it has no
    "M" tier), and every other tick, negative ones included, with one decimal
    and no suffix. The quotients are those of JavaScript numbers (doubles),
    and the decimals are those of [toFixed]. So revenue 120000 and 95000 read
    "120.0K" and "95.0K", growth_rate 5 reads "5.0%", and growth_rate -3
    reads "-3.0"; a tick of 1450 reads "1.4K", since the double 1450 / 1000
    lies below 1.45. *)
Theorem composed_tick_formats (value : float) :
  ((1000000 <=? value)%float = true →
     tickFormatter_left value = toFixed 1 (value / 1000000)%float +:+ "M")
  ∧ ((1000 <=? value)%float = true → (value <? 1000000)%float = true →
     tickFormatter_left value = toFixed 1 (value / 1000)%float +:+ "K")
  ∧ ((value <? 1000)%float = true → tickFormatter_left value = toFixed 0 value)
  ∧ ((0 <=? value)%float = true → (value <=? 100)%float = true →
     tickFormatter_right value = toFixed 1 value +:+ "%")
  ∧ ((1000 <=? value)%float = true →
     tickFormatter_right value = toFixed 1 (value / 1000)%float +:+ "K")
  ∧ ((value <? 0)%float = true
     ∨ (100 <? value)%float = true ∧ (value <? 1000)%float = true →
     tickFormatter_right value = toFixed 1 value)
  ∧ tickFormatter_left 120000 = "120.0K"
  ∧ tickFormatter_left 95000 = "95.0K"
  ∧ tickFormatter_right 5 = "5.0%"
  ∧ tickFormatter_right (-3) = "-3.0"
  ∧ tickFormatter_left 1450 = "1.4K"
  ∧ tickFormatter_left 1500000 = "1.5M"
  ∧ tickFormatter_left 999 = "999".
Proof.
  unfold tickFormatter_left, tickFormatter_right.
  split_and!; [| | | | | |by vm_compute..].
  - by intros ->.
  - intros Hk Hm. by rewrite (float_ltb_leb _ _ Hm), Hk.
  - intros Hlt.
    rewrite (float_ltb_leb _ _ (float_ltb_trans value 1000 1000000 Hlt eq_refl)).
    by rewrite (float_ltb_leb _ _ Hlt).
  - by intros -> ->.
  - intros Hk. rewrite Hk.
    destruct (value <=? 100)%float eqn:Hle; [|done].
    by pose proof (float_leb_trans 1000 value 100 Hk Hle).
  - intros [Hneg|[Hgt Hlt]].
    + rewrite (float_ltb_leb _ _ Hneg), andb_false_r.
      by rewrite (float_ltb_leb _ _ (float_ltb_trans value 0 1000 Hneg eq_refl)).
    + by rewrite (float_ltb_leb _ _ Hgt), (float_ltb_leb _ _ Hlt).
Qed.

End ticks.

(** C7 (as stated) fails. The secondary axis does not render -3 as a
    percentage: the tick reads "-3.0". Nor do the tiers go by magnitude: the
    primary axis renders -2,000,000 literally, and the secondary axis renders
    2,000,000 in thousands. *)
Lemma composed_tick_negative_is_not_percent :
  (∀ rt : Js.JsRuntime, ChartRenderer.tickFormatter_right (-3) = "-3.0")
  ∧ "-3.0" ≠ "-3.0%"
  ∧ (∀ rt : Js.JsRuntime,
       ChartRenderer.tickFormatter_left (-2000000) = "-2000000")
  ∧ (∀ rt : Js.JsRuntime,
       ChartRenderer.tickFormatter_right 2000000 = "2000.0K").
Proof. split_and!; try done; intros rt; by vm_compute. Qed.

(** ** ChartRenderer: dispatch *)

Section dispatch.
Import Js Api ChartRenderer.
Context {rt : JsRuntime}.

(** The component on a payload that reached the chart switch as [rows]. *)
Lemma ChartRenderer_rows (config : VisualizationConfig) (rows : list Obj) :
  data config = DataArray rows
  ∨ (∃ s, s ≠ "" ∧ data config = DataString s ∧ JSON_parse s = Some (PArray rows)) →
  ChartRenderer (Some config) =
    if decide (type config = error)
    then ErrorCard (title config) (message config)
    else ChartCard (title config) (renderChart config rows).
Proof.
  unfold ChartRenderer. intros [->|(s & Hs & -> & Hparse)].
  - by case_decide.
  - destruct s as [|c s]; [done|]. rewrite Hparse. by case_decide.
Qed.

(** Only the table path yields the placeholder on no rows. *)
Lemma renderChart_empty_NoData (config : VisualizationConfig) :
  renderChart config [] = NoData ↔ type config = table ∨ type config = error.
Proof.
  unfold renderChart.
  destruct (type config); simpl; split; (done || (intros [?|?]; done) || auto).
Qed.

(** C8 (as the code has it). When the normalized data sequence is empty (an
    empty array, or a string that parses to one), the "no data" placeholder
    is what the renderer returns exactly when the chart type is [table]. For
    type [error] it returns the error view, and for every chart family it
    returns that family's chart over the derived data of no rows: an empty
    series for [bar], the lone "Total" entry for [waterfall], an empty funnel
    for [funnel]. *)
Theorem empty_data_placeholder_only_for_table (config : VisualizationConfig) :
  data config = DataArray []
  ∨ (∃ s, s ≠ "" ∧ data config = DataString s ∧ JSON_parse s = Some (PArray [])) →
  (ChartRenderer (Some config) = ChartCard (title config) NoData ↔
     type config = table)
  ∧ (type config = error →
     ChartRenderer (Some config) = ErrorCard (title config) (message config))
  ∧ (type config ≠ error →
     ChartRenderer (Some config) = ChartCard (title config) (renderChart config []))
  ∧ (type config = bar →
     ChartRenderer (Some config) =
       ChartCard (title config)
         (BarChart [] horizontal (xKey config)
            [single (getYKey config) "url(#barGradient)"] []))
  ∧ (type config = waterfall →
     ChartRenderer (Some config) =
       ChartCard (title config)
         (BarChart
            [[("name", VStr "Total"); ("value", VNum 0%float);
              ("start", VNum 0%float); ("end", VNum 0%float);
              ("fill", VStr "#667eea")]]
            horizontal (Some "name")
            [{| dataKey := Some "value"; seriesName := Some "Change";
                seriesColor := None; stackId := None; yAxisId := None |}]
            [VStr "#667eea"]))
  ∧ (type config = funnel →
     ChartRenderer (Some config) = ChartCard (title config) (FunnelChart [] [])).
Proof.
  intros Hempty. rewrite (ChartRenderer_rows config [] Hempty).
  split_and!.
  - case_decide as Herr.
    + split; [done|]. by rewrite Herr.
    + split.
      * intros [= Hchart]. apply renderChart_empty_NoData in Hchart. tauto.
      * intros Htable. do 2 f_equal. apply renderChart_empty_NoData. by left.
  - intros Herr. by rewrite decide_True.
  - intros Herr. by rewrite decide_False.
  - intros Hty. rewrite decide_False by by rewrite Hty.
    unfold renderChart. by rewrite Hty.
  - intros Hty. rewrite decide_False by by rewrite Hty.
    unfold renderChart. by rewrite Hty.
  - intros Hty. rewrite decide_False by by rewrite Hty.
    unfold renderChart. by rewrite Hty.
Qed.

(** C9 (as the code has it). A string payload that does not parse never
    makes the renderer fail: the renderer is a total function of the config.
    When the string is not empty and the type is not [error], the result is
    the text view with the config's title and the raw string. An empty string
    counts as no data and renders nothing, and type [error] shows the error
    view before the payload is looked at. *)
Theorem unparsable_string_renders_raw_text
    (config : VisualizationConfig) (s : string) :
  data config = DataString s →
  JSON_parse s = None →
  (s ≠ "" → type config ≠ error →
   ChartRenderer (Some config) = RawText (title config) s)
  ∧ (s = "" → ChartRenderer (Some config) = Nothing)
  ∧ (s ≠ "" → type config = error →
     ChartRenderer (Some config) = ErrorCard (title config) (message config)).
Proof.
  intros Hdata Hparse. unfold ChartRenderer. rewrite Hdata.
  split_and!.
  - intros Hs Herr. destruct s as [|c s]; [done|].
    by rewrite decide_False, Hparse.
  - by intros ->.
  - intros Hs Herr. destruct s as [|c s]; [done|].
    by rewrite decide_True.
Qed.

End dispatch.

(** The dispatch theorem at an empty table. *)
Lemma empty_data_placeholder_only_for_table_witness :
  @ChartRenderer.ChartRenderer Sample.runtime (Some Examples.empty_table_config) =
    ChartRenderer.ChartCard "Sales" ChartRenderer.NoData.
Proof.
  apply (proj1 (@empty_data_placeholder_only_for_table Sample.runtime
                  Examples.empty_table_config (or_introl eq_refl))).
  reflexivity.
Defined.

(** The text fallback on a string that is not JSON. *)
Lemma unparsable_string_renders_raw_text_witness :
  @ChartRenderer.ChartRenderer Sample.runtime (Some Examples.unparsable_config) =
    ChartRenderer.RawText "Sales" "category,total".
Proof.
  apply (proj1 (@unparsable_string_renders_raw_text Sample.runtime
                  Examples.unparsable_config "category,total" eq_refl eq_refl));
    [vm_compute | vm_compute]; discriminate.
Defined.


(** C8 (as stated) fails: a bar chart over no rows is a bar chart with an
    empty series, not the "no data" placeholder. *)
Lemma empty_bar_chart_is_not_placeholder :
  Api.data Examples.empty_bar_config = Api.DataArray []
  ∧ (∀ rt : Js.JsRuntime,
       ChartRenderer.ChartRenderer (Some Examples.empty_bar_config) =
         ChartRenderer.ChartCard "Sales"
           (ChartRenderer.BarChart [] ChartRenderer.horizontal (Some "category")
              [ChartRenderer.single "total" "url(#barGradient)"] []))
  ∧ (∀ rt : Js.JsRuntime,
       ChartRenderer.ChartRenderer (Some Examples.empty_bar_config) ≠
         ChartRenderer.ChartCard "Sales" ChartRenderer.NoData)
  ∧ (∀ rt : Js.JsRuntime,
       ChartRenderer.ChartRenderer (Some Examples.empty_bar_config) ≠
         ChartRenderer.Nothing).
Proof. by split_and!. Qed.

(** C9 (as stated) fails: the empty string does not parse, and the renderer
    returns nothing for it, not a text view; with type [error] a string that
    does not parse gives the error view. *)
Lemma empty_string_payload_renders_nothing :
  Api.data Examples.empty_string_config = Api.DataString ""
  ∧ Js.JSON_parse (JsRuntime := Sample.runtime) "" = None
  ∧ (∀ rt : Js.JsRuntime,
       ChartRenderer.ChartRenderer (Some Examples.empty_string_config) =
         ChartRenderer.Nothing)
  ∧ (∀ rt : Js.JsRuntime,
       ChartRenderer.ChartRenderer (Some Examples.empty_string_config) ≠
         ChartRenderer.RawText "Sales" "")
  ∧ (∀ rt : Js.JsRuntime,
       ChartRenderer.ChartRenderer (Some Examples.unparsable_error_config) =
         ChartRenderer.ErrorCard "Sales" None).
Proof. by split_and!. Qed.

(** ** Tables *)

Section tables.
Import Js Api.
Context {rt : JsRuntime}.


(** The empty sequence shows the "no data" text in both views. *)
Lemma tables_no_data :
  ChartRenderer.renderTable [] = ChartRenderer.NoData
  ∧ DataTable.DataTable (Some []) = DataTable.NoData
  ∧ DataTable.DataTable None = DataTable.NoData.
Proof. done. Qed.

End tables.

(** * Further properties of the components *)

(** ** ChartRenderer: metric keys and series *)

Section metric_keys.
Import Js Api ChartRenderer.

Lemma str_or_nonempty (s : option string) (d : string) : d ≠ "" → str_or s d ≠ "".
Proof. intros Hd. by destruct s as [[|c s]|]. Qed.

Lemma str_or_idem (s : option string) (d : string) :
  str_or (Some (str_or s d)) d = str_or s d.
Proof. destruct s as [[|c s]|]; simpl; try done; by destruct d. Qed.

(** X1. The key of the single-metric charts is the first of the metric keys
    of the multi-metric charts, with ["value"] standing in when there is no
    first key or it is empty; it is never the empty string. *)
Theorem getYKey_first_of_yKeys (config : VisualizationConfig) :
  getYKey config = str_or (yKeys config !! 0%nat) "value"
  ∧ getYKey config ≠ ""
  ∧ (yKey config = Some (YKeyMany []) →
     yKeys config = [] ∧ getYKey config = "value")
  ∧ (∀ key, yKey config = Some (YKeyOne key) → yKeys config = [getYKey config]).
Proof.
  unfold getYKey, yKeys. split_and!.
  - by destruct (yKey config) as [[[|c key]|keys]|].
  - destruct (yKey config) as [[key|keys]|]; try done; by apply str_or_nonempty.
  - by intros ->.
  - by intros key ->.
Qed.

Lemma COLORS_NoDup : NoDup COLORS.
Proof. by apply (bool_decide_unpack _). Qed.

Lemma color_eq_iff (i j : nat) : color i = color j ↔ (i mod 8 = j mod 8)%nat.
Proof.
  split; [|unfold color; change (length COLORS) with 8%nat; by intros ->].
  intros Heq.
  pose proof (color_in_palette i) as Hi. pose proof (color_in_palette j) as Hj.
  rewrite Heq in Hi. exact (NoDup_lookup _ _ _ _ COLORS_NoDup Hi Hj).
Qed.

Lemma metricBars_series (config : VisualizationConfig) (stack : option string) :
  let bars := metricBars config stack in
  dataKey <$> bars = Some <$> yKeys config
  ∧ seriesName <$> bars = (λ key, Some (displayName key)) <$> yKeys config
  ∧ Forall (λ b, stackId b = stack ∧ yAxisId b = None) bars
  ∧ (∀ i b, bars !! i = Some b → seriesColor b = Some (color i))
  ∧ (∀ i j b b', bars !! i = Some b → bars !! j = Some b' →
       (seriesColor b = seriesColor b' ↔ (i mod 8 = j mod 8)%nat))
  ∧ (length (yKeys config) ≤ 8 → NoDup (seriesColor <$> bars)).
Proof.
  intros bars. subst bars. unfold metricBars.
  assert (Hcolor : ∀ i b,
            imap (λ index key,
                    {| dataKey := Some key; seriesName := Some (displayName key);
                       seriesColor := Some (color index); stackId := stack;
                       yAxisId := None |}) (yKeys config) !! i = Some b →
            seriesColor b = Some (color i)).
  { intros i b Hb. apply list_lookup_imap_Some in Hb as (key & _ & ->). done. }
  split_and!.
  - apply list_eq. intros i.
    rewrite !list_lookup_fmap, list_lookup_imap. by destruct (yKeys config !! i).
  - apply list_eq. intros i.
    rewrite !list_lookup_fmap, list_lookup_imap. by destruct (yKeys config !! i).
  - apply Forall_forall. intros b Hb.
    apply elem_of_lookup_imap in Hb as (i & key & -> & _). done.
  - exact Hcolor.
  - intros i j b b' Hb Hb'. rewrite (Hcolor i b Hb), (Hcolor j b' Hb').
    rewrite <- color_eq_iff. split; [by intros [= ?]|by intros ->].
  - intros Hlen. apply NoDup_alt. intros i j c Hi Hj.
    apply list_lookup_fmap_Some in Hi as (b & -> & Hb).
    apply list_lookup_fmap_Some in Hj as (b' & Heq & Hb').
    pose proof (lookup_lt_Some _ _ _ Hb) as Hilt.
    pose proof (lookup_lt_Some _ _ _ Hb') as Hjlt.
    rewrite length_imap in Hilt, Hjlt.
    rewrite (Hcolor i b Hb), (Hcolor j b' Hb') in Heq.
    injection Heq as Heq. apply color_eq_iff in Heq.
    rewrite !Nat.mod_small in Heq by lia. done.
Qed.

Context {rt : JsRuntime}.

(** X3. The stacked and clustered charts (stacked column, stacked bar,
    clustered column, clustered bar, 100% stacked) are bar charts over the
    category key that draw one bar series per metric key, in the order of
    the keys, each named by its key with the underscores turned into spaces
    and coloured from the palette by its position. The stacked charts put
    every series on the one stack, the clustered charts on none; the two bar
    variants are laid out vertically; the 100% chart draws the percentage
    rows, the others the rows as they are. Two series share a colour exactly
    when their positions differ by a multiple of 8, so up to eight metrics
    are told apart by colour. *)
Theorem stacked_charts_draw_metric_series
    (config : VisualizationConfig) (chartData : list Obj) :
  type config ∈ [stacked_column; stacked_bar; clustered_column; clustered_bar;
                 stacked_100] →
  ∃ bars,
    renderChart config chartData =
      BarChart
        (if decide (type config = stacked_100)
         then percentData config chartData else chartData)
        (if decide (type config ∈ [stacked_bar; clustered_bar])
         then vertical else horizontal)
        (xKey config) bars []
    ∧ dataKey <$> bars = Some <$> yKeys config
    ∧ seriesName <$> bars = (λ key, Some (displayName key)) <$> yKeys config
    ∧ Forall (λ b, stackId b =
                     (if decide (type config ∈ [clustered_column; clustered_bar])
                      then None else Some "stack1")
                   ∧ yAxisId b = None) bars
    ∧ (∀ i b, bars !! i = Some b → seriesColor b = Some (color i))
    ∧ (∀ i j b b', bars !! i = Some b → bars !! j = Some b' →
         (seriesColor b = seriesColor b' ↔ (i mod 8 = j mod 8)%nat))
    ∧ (length (yKeys config) ≤ 8 → NoDup (seriesColor <$> bars)).
Proof.
  intros Hty. unfold renderChart.
  destruct (type config) eqn:Htype;
    try (exfalso; revert Hty; by apply (bool_decide_unpack _)).
  - exists (metricBars config (Some "stack1")).
    split; [done|]. apply metricBars_series.
  - exists (metricBars config (Some "stack1")).
    split; [done|]. apply metricBars_series.
  - exists (metricBars config None).
    split; [done|]. apply metricBars_series.
  - exists (metricBars config None).
    split; [done|]. apply metricBars_series.
  - exists (metricBars config (Some "stack1")).
    split; [done|]. apply metricBars_series.
Qed.

(** X2. The composed chart puts the first metric key on the left axis as
    the bar series and every further key, in order, on the right axis as a
    line coloured from the third palette colour on. The right axis exists
    exactly when there are two or more keys, the hint text is shown exactly
    when there is one key, and never both. *)
Theorem composed_axes (config : VisualizationConfig) (chartData : list Obj) :
  type config = composed →
  ∃ leftLabel rightLabel primary secondary hint,
    renderChart config chartData =
      ComposedChart chartData (xKey config) leftLabel rightLabel primary secondary hint
    ∧ dataKey primary = yKeys config !! 0%nat
    ∧ yAxisId primary = Some "left"
    ∧ dataKey <$> secondary = Some <$> drop 1 (yKeys config)
    ∧ Forall (λ s, yAxisId s = Some "right") secondary
    ∧ (∀ i s, secondary !! i = Some s → seriesColor s = Some (color (i + 2)))
    ∧ (is_Some rightLabel ↔ (1 < length (yKeys config))%nat)
    ∧ (hint = true ↔ length (yKeys config) = 1%nat)
    ∧ ¬ (hint = true ∧ is_Some rightLabel).
Proof.
  intros Hty. unfold renderChart. rewrite Hty.
  do 5 eexists. split; [reflexivity|].
  destruct (decide (1 < length (yKeys config))%nat) as [Hlen|Hlen].
  - split_and!; try done.
    + apply list_eq. intros i.
      rewrite !list_lookup_fmap, list_lookup_imap.
      by destruct (drop 1 (yKeys config) !! i).
    + apply Forall_forall. intros s Hs.
      apply elem_of_lookup_imap in Hs as (i & key & -> & _). done.
    + intros i s Hs. apply list_lookup_imap_Some in Hs as (key & _ & ->). done.
    + rewrite bool_decide_eq_true. lia.
    + rewrite bool_decide_eq_true. lia.
  - split_and!; try done.
    + destruct (yKeys config) as [|k [|k' ks]]; simpl in *; try done. lia.
    + apply bool_decide_eq_true.
    + intros [_ [? ?]]. done.
Qed.

End metric_keys.

(** The composed chart of the revenue and growth-rate example. *)
Lemma composed_axes_witness :
  ∃ leftLabel rightLabel primary secondary hint,
    @ChartRenderer.renderChart Sample.runtime
      (Examples.config_of Api.composed (Some "month")
         (Some (Api.YKeyMany ["revenue"; "growth_rate"])) (Api.DataArray []) None) [] =
      ChartRenderer.ComposedChart [] (Some "month") leftLabel rightLabel
        primary secondary hint
    ∧ ChartRenderer.dataKey primary = Some "revenue"
    ∧ ChartRenderer.dataKey <$> secondary = [Some "growth_rate"]
    ∧ is_Some rightLabel ∧ hint = false.
Proof.
  destruct (@composed_axes Sample.runtime
              (Examples.config_of Api.composed (Some "month")
                 (Some (Api.YKeyMany ["revenue"; "growth_rate"])) (Api.DataArray []) None)
              [] eq_refl)
    as (l & r & p & s & h & Hchart & Hp & _ & Hs & _ & _ & Hr & Hh & _).
  exists l, r, p, s, h. split_and!; [exact Hchart|exact Hp|exact Hs| |].
  - apply Hr. simpl. lia.
  - destruct h; [|done]. by pose proof (proj1 Hh eq_refl).
Defined.

(** The 100% stacked chart of the two-metric example. *)
Lemma stacked_charts_draw_metric_series_witness :
  ∃ bars,
    @ChartRenderer.renderChart Sample.runtime Examples.stacked_config
      [Examples.stacked_row] =
      ChartRenderer.BarChart
        [[("cat", Js.VStr "A"); ("x", Examples.num 25); ("y", Examples.num 75)]]
        ChartRenderer.horizontal (Some "cat") bars []
    ∧ ChartRenderer.dataKey <$> bars = [Some "x"; Some "y"]
    ∧ ChartRenderer.stackId <$> bars = [Some "stack1"; Some "stack1"].
Proof.
  destruct (@stacked_charts_draw_metric_series Sample.runtime Examples.stacked_config
              [Examples.stacked_row])
    as (bars & Hchart & Hkeys & _ & Hstack & _).
  { by apply (bool_decide_unpack _). }
  exists bars. split_and!; [exact Hchart|exact Hkeys|].
  destruct bars as [|b1 [|b2 [|b3 bars]]]; try discriminate Hkeys.
  apply Forall_cons in Hstack as [[Hs1 _] Hstack].
  apply Forall_cons in Hstack as [[Hs2 _] _].
  simpl. by rewrite Hs1, Hs2.
Defined.

(** ** ChartRenderer: more on the waterfall transform *)

Section waterfall_more.
Import Js Api ChartRenderer.
Context {rt : JsRuntime} (config : VisualizationConfig).

(** X4. The waterfall bars form a chain: the first entry starts at 0, every
    entry of a row starts where the entry of the row before it ends, and the
    Total entry ends (and has as its value) where the last row's entry
    ends. *)
Theorem waterfall_entries_chain (chartData : list Obj) :
  let out := waterfallData config chartData in
  (∀ first, out !! 0%nat = Some first → get first "start" = VNum 0%float)
  ∧ (∀ i e e', (S i < length chartData)%nat →
       out !! i = Some e → out !! S i = Some e' →
       get e' "start" = get e "end")
  ∧ (∀ i e total, length chartData = S i →
       out !! i = Some e → out !! S i = Some total →
       get total "end" = get e "end" ∧ get total "value" = get e "end").
Proof.
  intros out. subst out.
  set (values := (λ row, number_or_0 (get row (getYKey config))) <$> chartData).
  assert (Hstep : ∀ i row, chartData !! i = Some row →
            Spec.sum (take (S i) values) =
            (Spec.sum (take i values) + number_or_0 (get row (getYKey config)))%float).
  { intros i row Hi. apply sum_take_S. subst values. by rewrite list_lookup_fmap, Hi. }
  split_and!.
  - intros first. destruct chartData as [|row rest] eqn:Hdata.
    + by intros [= <-].
    + rewrite (waterfallData_lookup config (row :: rest) 0 row eq_refl).
      intros [= <-].
      exact (proj1 (waterfallEntry_fields config (Spec.sum []) row)).
  - intros i e e' Hlt.
    destruct (lookup_lt_is_Some_2 chartData i) as [row Hrow]; [lia|].
    destruct (lookup_lt_is_Some_2 chartData (S i)) as [row' Hrow']; [lia|].
    rewrite (waterfallData_lookup _ _ _ _ Hrow), (waterfallData_lookup _ _ _ _ Hrow').
    intros He He'. apply (inj Some) in He, He'. subst e e'. fold values.
    destruct (waterfallEntry_fields config (Spec.sum (take i values)) row)
      as (_ & -> & _).
    destruct (waterfallEntry_fields config (Spec.sum (take (S i) values)) row')
      as (-> & _).
    f_equal. by apply Hstep.
  - intros i e total Hlen.
    destruct (lookup_lt_is_Some_2 chartData i) as [row Hrow]; [lia|].
    rewrite (waterfallData_lookup _ _ _ _ Hrow), <- Hlen, waterfallData_total.
    intros He Htotal. apply (inj Some) in He, Htotal. subst e total. fold values.
    destruct (waterfallEntry_fields config (Spec.sum (take i values)) row)
      as (_ & -> & _).
    rewrite <- (Hstep i row Hrow).
    rewrite take_ge by (subst values; rewrite length_fmap; lia).
    by split.
Qed.

(** X5. A waterfall entry is its row with five fields written over it: every
    key of the row is still a key of the entry, and every column other than
    [name], [value], [start], [end] and [fill] keeps its value; a column of
    the row with one of those five names is overwritten. *)
Theorem waterfall_entry_keeps_columns (chartData : list Obj) :
  ∀ i row, chartData !! i = Some row →
    ∃ entry, waterfallData config chartData !! i = Some entry
      ∧ (∀ k, k ∈ Object_keys row → k ∈ Object_keys entry)
      ∧ (∀ k, k ∈ Object_keys entry ↔
              k ∈ Object_keys row ∨ k ∈ ["name"; "value"; "start"; "end"; "fill"])
      ∧ (∀ k, k ∉ ["name"; "value"; "start"; "end"; "fill"] →
              get entry k = get row k)
      ∧ get entry "value" = VNum (number_or_0 (get row (getYKey config))).
Proof.
  intros i row Hrow. eexists. split; [by apply waterfallData_lookup|].
  destruct (waterfallEntry_fields config
              (Spec.sum (take i ((λ row, number_or_0 (get row (getYKey config)))
                                 <$> chartData))) row)
    as (_ & _ & Hvalue & _ & _ & Hframe).
  assert (Hkeys : ∀ k,
            k ∈ Object_keys (waterfallEntry config
                   (Spec.sum (take i ((λ row, number_or_0 (get row (getYKey config)))
                                      <$> chartData))) row).1 ↔
            k ∈ Object_keys row ∨ k ∈ ["name"; "value"; "start"; "end"; "fill"]).
  { intros k. unfold waterfallEntry, obj_extend. simpl.
    rewrite !Object_keys_set, !elem_of_cons, elem_of_nil. tauto. }
  split_and!; [|done..].
  intros k Hk. apply Hkeys. by left.
Qed.

End waterfall_more.

(** The frame of a waterfall entry on the three-row example. *)
Lemma waterfall_entry_keeps_columns_witness :
  ∃ entry,
    @ChartRenderer.waterfallData Sample.runtime Examples.waterfall_config
      Examples.waterfall_rows !! 1%nat = Some entry
    ∧ Js.get entry "step" = Js.VStr "Refunds"
    ∧ Js.get entry "delta" = Examples.num (-3).
Proof.
  destruct (@waterfall_entry_keeps_columns Sample.runtime Examples.waterfall_config
              Examples.waterfall_rows 1%nat
              [("step", Js.VStr "Refunds"); ("delta", Examples.num (-3))] eq_refl)
    as (entry & Hentry & _ & _ & Hframe & _).
  exists entry. split_and!; [exact Hentry| |].
  - rewrite Hframe; [reflexivity|]. by apply (bool_decide_unpack _).
  - rewrite Hframe; [reflexivity|]. by apply (bool_decide_unpack _).
Defined.

(** ** ChartRenderer: more on the 100% stacked transform *)

Section stacked_more.
Import Js Api ChartRenderer.




Context {rt : JsRuntime}.


End stacked_more.

(** ** ChartRenderer: more on the funnel transform *)

Section funnel_more.
Import Js Api ChartRenderer.
Context {rt : JsRuntime}.

(** X8. The funnel has one stage per row, and its first stage is one of
    largest value: no row's value exceeds it. An empty result gives an empty
    funnel. *)
Theorem funnel_largest_first (config : VisualizationConfig) (chartData : list Obj) :
  let out := funnelData config chartData in
  length out = length chartData
  ∧ (chartData = [] ↔ out = [])
  ∧ (∀ top, head out = Some top →
       (∀ e, e ∈ out → (value e <=? value top)%float = true)
       ∧ (∀ row, row ∈ chartData →
            (number_or_0 (get row (getYKey config)) <=? value top)%float = true)).
Proof.
  intros out.
  assert (Hperm : out ≡ₚ funnelEntries config chartData)
    by apply funnelData_Permutation.
  assert (Hlen : length out = length chartData).
  { rewrite Hperm. apply length_imap. }
  pose proof (funnelData_sorted config chartData) as Hsorted.
  pose proof (funnelData_numbers config chartData) as Hnum.
  fold out in Hsorted, Hnum.
  split_and!; [done| |].
  - split.
    + intros ->. by apply nil_length_inv.
    + intros Hnil. apply nil_length_inv. by rewrite <- Hlen, Hnil.
  - intros top Htop.
    assert (Hmax : ∀ e, e ∈ out → (value e <=? value top)%float = true).
    { destruct out as [|e0 rest]; [done|]. simpl in Htop. injection Htop as ->.
      apply StronglySorted_inv in Hsorted as [_ Hrest].
      apply Forall_cons in Hnum as [Htopnum _].
      intros e [->|He]%elem_of_cons; [by apply float_leb_refl|].
      by apply (proj1 (Forall_forall _ _) Hrest). }
    split; [done|].
    intros row Hrow. apply list_elem_of_lookup in Hrow as [i Hi].
    apply (Hmax {| name := ToString (get row (str_or (xKey config) "name"));
                   value := number_or_0 (get row (getYKey config));
                   fill := color i |}).
    rewrite Hperm. unfold funnelEntries. apply elem_of_lookup_imap.
    by exists i, row.
Qed.

End funnel_more.

(** ** ChartTypeSelector: the options on offer and their marks *)

Section selector_more.
Import Js Api ChartTypeSelector SelectorView.

Lemma CHART_OPTIONS_values_NoDup : NoDup (value <$> CHART_OPTIONS).
Proof. by apply (bool_decide_unpack _). Qed.

Lemma sortedOptions_values (recommendedTypes : list ChartType) :
  value <$> sortedOptions recommendedTypes ≡ₚ value <$> CHART_OPTIONS.
Proof. apply fmap_Permutation, Array_sort_Permutation. Qed.

Lemma sortedOptions_offers_each_type_once_aux (recommendedTypes : list ChartType) :
  NoDup (value <$> sortedOptions recommendedTypes)
  ∧ (∀ t, t ∈ value <$> sortedOptions recommendedTypes ↔ t ≠ error).
Proof.
  split.
  - rewrite sortedOptions_values. apply CHART_OPTIONS_values_NoDup.
  - intros t. rewrite sortedOptions_values.
    destruct t; split; try done;
      try (intros _; by apply (bool_decide_unpack _)).
    intros Hin. by apply (bool_decide_pack _) in Hin.
Qed.

(** X9. Whatever is recommended, the selector offers every chart type of
    the registry exactly once: ranking neither drops nor repeats an option,
    and recommending a type that is not in the registry (such as [error])
    adds none. *)
Theorem sortedOptions_offers_each_type_once (recommendedTypes : list ChartType) :
  NoDup (value <$> sortedOptions recommendedTypes)
  ∧ length (sortedOptions recommendedTypes) = 15%nat
  ∧ (∀ t, t ∈ value <$> sortedOptions recommendedTypes ↔ t ≠ error).
Proof.
  destruct (sortedOptions_offers_each_type_once_aux recommendedTypes) as [Hnodup Hin].
  split_and!; [done| |done].
  unfold sortedOptions, sortOptions. by rewrite Array_sort_Permutation.
Qed.

Lemma isAIPick_isRecommended (recommendedTypes : list ChartType) (t : ChartType) :
  isAIPick recommendedTypes t = true → isRecommended recommendedTypes t = true.
Proof.
  unfold isAIPick, isRecommended. rewrite !bool_decide_eq_true.
  apply list_elem_of_lookup_2.
Qed.

(** X10. The marks on the selector's buttons: the sparkle (AI pick) is only
    ever on the selected button and only when that type is recommended; a
    recommended button shows the dot exactly when it is not selected, so no
    button has both marks; at most one button is selected, and exactly one
    when the current type is a type of the registry. *)
Theorem selector_marks (currentType : ChartType) (recommendedTypes : list ChartType) :
  let bs := buttons currentType recommendedTypes in
  Forall (λ b, (sparkle b = true → selected b = true ∧ recommended b = true
                                   ∧ recommendedTypes !! 0%nat = Some currentType)
               ∧ (dot b = true ↔ recommended b = true ∧ selected b = false)
               ∧ ¬ (sparkle b = true ∧ dot b = true)
               ∧ (selected b = true ↔ value (chartOption b) = currentType)) bs
  ∧ (∀ i j b b', bs !! i = Some b → bs !! j = Some b' →
       selected b = true → selected b' = true → i = j)
  ∧ (currentType ≠ error → ∃ b, b ∈ bs ∧ selected b = true)
  ∧ chartOption <$> bs = sortedOptions recommendedTypes.
Proof.
  intros bs. subst bs. unfold buttons. split_and!.
  - apply Forall_fmap, Forall_forall. intros o _. simpl. split_and!.
    + rewrite andb_true_iff. intros [Hai Hsel]. split_and!; [done| |].
      * by apply isAIPick_isRecommended.
      * apply bool_decide_eq_true in Hsel as ->.
        by apply bool_decide_eq_true in Hai.
    + rewrite andb_true_iff, negb_true_iff. tauto.
    + rewrite !andb_true_iff, negb_true_iff. intros [[_ ?] [_ ?]]. congruence.
    + rewrite bool_decide_eq_true. split; by intros ->.
  - intros i j b b' Hb Hb' Hsel Hsel'.
    apply list_lookup_fmap_Some in Hb as (o & -> & Ho).
    apply list_lookup_fmap_Some in Hb' as (o' & -> & Ho').
    simpl in *. apply bool_decide_eq_true in Hsel, Hsel'.
    destruct (sortedOptions_offers_each_type_once_aux recommendedTypes) as [Hnodup _].
    eapply (NoDup_lookup _ i j (value o) Hnodup).
    + by rewrite list_lookup_fmap, Ho.
    + rewrite list_lookup_fmap, Ho'. simpl. congruence.
  - intros Herr.
    assert (Hin : currentType ∈ value <$> sortedOptions recommendedTypes).
    { rewrite sortedOptions_values.
      destruct currentType; try done; by apply (bool_decide_unpack _). }
    apply list_elem_of_fmap in Hin as (o & -> & Ho).
    eexists. split; [apply list_elem_of_fmap; by exists o|].
    simpl. by apply bool_decide_eq_true.
  - rewrite <- list_fmap_compose. apply list_fmap_id.
Qed.

End selector_more.

(** ** Dashboard: picks, failures and what is mounted *)

Section dashboard_more.
Import Js Api Dashboard.

(** X11. A pick of a chart type changes the type of the effective config
    and nothing else: title, keys, data, message and recommendations are the
    result's own, and the result, the steps, the error and the loading flag
    are untouched. Of several picks in a row the last one counts. *)
Theorem pick_changes_only_type (s : State) (t : ChartType) :
  let s' := step s (ChartTypeChange t) in
  result s' = result s ∧ steps s' = steps s ∧ error s' = error s
  ∧ isLoading s' = isLoading s
  ∧ recommendedCharts s' = recommendedCharts s
  ∧ (∀ response config,
       result s = Some response → visualization_config response = Some config →
       getEffectiveConfig s' =
         Some {| type := t; title := title config; xKey := xKey config;
                 yKey := yKey config; data := data config;
                 message := message config;
                 recommended_charts := recommended_charts config |})
  ∧ (getEffectiveConfig s = None → getEffectiveConfig s' = None)
  ∧ (∀ picks, selectedChartType (run s (ChartTypeChange <$> (picks ++ [t]))) = Some t).
Proof.
  intros s'. subst s'. split_and!; try done.
  - unfold getEffectiveConfig. simpl. by intros response config -> ->.
  - unfold getEffectiveConfig. simpl.
    destruct (result s) as [response|]; [|done].
    by destruct (visualization_config response).
  - intros picks. rewrite fmap_app.
    change (ChartTypeChange <$> [t]) with [ChartTypeChange t].
    by rewrite run_snoc.
Qed.

Lemma run_app (s : State) (events events' : list Event) :
  run s (events ++ events') = run (run s events) events'.
Proof. apply foldl_app. Qed.

Lemma run_picks (s : State) (picks : list ChartType) :
  let s' := run s (ChartTypeChange <$> picks) in
  result s' = result s ∧ steps s' = steps s ∧ error s' = error s
  ∧ isLoading s' = isLoading s.
Proof.
  revert s. induction picks as [|t picks IH]; intros s; [done|].
  exact (IH (handleChartTypeChange t s)).
Qed.

(** X12. A query that fails leaves no chart on screen: after a submit, any
    picks made while it was loading, and its rejection, there is no result
    and no effective config, whatever was shown before; the error message is
    the rejection's (or "An error occurred"), the loading flag is off, and
    the log holds the sending line followed by the error line. *)
Theorem failed_query_shows_no_chart
    (s : State) (question : string) (picks : list ChartType)
    (message : option string) :
  let s' := run s ([Submit question] ++ (ChartTypeChange <$> picks)
                   ++ [Rejected message]) in
  result s' = None
  ∧ getEffectiveConfig s' = None
  ∧ error s' = Some (default "An error occurred" message)
  ∧ isLoading s' = false
  ∧ steps s' = ["🚀 Sending question to InsightAI...";
                "❌ Error: " +:+ default "An error occurred" message].
Proof.
  intros s'. subst s'. rewrite !run_app.
  destruct (run_picks (run s [Submit question]) picks) as (Hr & Hs & He & Hl).
  set (s1 := run (run s [Submit question]) (ChartTypeChange <$> picks)) in *.
  change (run s1 [Rejected message]) with (handleSubmit_rejected message s1).
  unfold getEffectiveConfig, handleSubmit_rejected. simpl. rewrite Hr, Hs. done.
Qed.

End dashboard_more.

Section mounted_selector.
Import Js Api ChartTypeSelector Dashboard SelectorView.

(** X13. When a result arrives without a recommendation list, the selector
    treats the result's own type as the one recommendation: that type's
    button comes first, is selected and carries the sparkle, and no other
    button is recommended or selected. *)
Theorem selector_after_result_without_recommendations
    (s : State) (history : list Event) (response : AnalyzeResponse)
    (config : VisualizationConfig) :
  visualization_config response = Some config →
  recommended_charts config = None →
  type config ≠ Api.error →
  ∃ b bs,
    mounted (run s (history ++ [Resolved response])) = Some (b :: bs)
    ∧ value (chartOption b) = type config
    ∧ selected b = true ∧ sparkle b = true ∧ dot b = false
    ∧ Forall (λ b', recommended b' = false ∧ selected b' = false
                    ∧ sparkle b' = false ∧ dot b' = false) bs.
Proof.
  intros Hconfig Hrec Herr. rewrite run_snoc.
  unfold mounted, getEffectiveConfig, selectorType, recommendedCharts. simpl.
  unfold defaultChartType. rewrite Hconfig, Hrec. simpl.
  destruct (type config); try done;
    (do 2 eexists; split; [reflexivity|];
     split_and!; try reflexivity; by apply (bool_decide_unpack _)).
Qed.

End mounted_selector.

(** The selector after a bar result that names no recommendations. *)
Lemma selector_after_result_without_recommendations_witness :
  ∃ b bs,
    SelectorView.mounted
      (Dashboard.run Dashboard.initial
         ([Dashboard.Submit "q"] ++
          [Dashboard.Resolved (Examples.response_of Examples.empty_bar_config)])) =
      Some (b :: bs)
    ∧ ChartTypeSelector.value (SelectorView.chartOption b) = Api.bar
    ∧ SelectorView.sparkle b = true.
Proof.
  destruct (selector_after_result_without_recommendations Dashboard.initial
              [Dashboard.Submit "q"] (Examples.response_of Examples.empty_bar_config)
              Examples.empty_bar_config eq_refl eq_refl)
    as (b & bs & Hm & Hv & _ & Hs & _); [discriminate|].
  by exists b, bs.
Defined.

(** ** QueryInput and Dashboard together *)

Section app.
Import Api.
Context (trim : string → string).

Lemma app_step_invariant (s : App.State) (e : App.Event) :
  (Dashboard.isLoading (App.dashboard s) = true ∧ App.inFlight s = 1%nat)
  ∨ (Dashboard.isLoading (App.dashboard s) = false ∧ App.inFlight s = 0%nat) →
  (Dashboard.isLoading (App.dashboard (App.step trim s e)) = true
   ∧ App.inFlight (App.step trim s e) = 1%nat)
  ∨ (Dashboard.isLoading (App.dashboard (App.step trim s e)) = false
     ∧ App.inFlight (App.step trim s e) = 0%nat).
Proof.
  intros [[Hl Hn]|[Hl Hn]]; destruct e as [question|response|message|t]; simpl;
    unfold QueryInput.handleSubmit; rewrite ?Hl, ?Hn; simpl;
    try destruct (trim question); simpl; rewrite ?Hl, ?Hn; auto.
Qed.

(** X14. Through the form, the dashboard never has two queries in flight:
    in every run from the initial state at most one request awaits its
    outcome, and the loading flag is on exactly while one does. A submit is
    dropped, leaving the state as it is, when the trimmed question is empty
    or while a query is loading; so a result that arrives is always that of
    the only query sent since the previous outcome. *)
Theorem one_query_in_flight (events : list App.Event) :
  let s := App.run trim App.initial events in
  (App.inFlight s ≤ 1)%nat
  ∧ (Dashboard.isLoading (App.dashboard s) = true ↔ App.inFlight s = 1%nat)
  ∧ (∀ question, trim question = "" → App.step trim s (App.SubmitForm question) = s)
  ∧ (∀ question, Dashboard.isLoading (App.dashboard s) = true →
       App.step trim s (App.SubmitForm question) = s)
  ∧ (∀ question, trim question ≠ "" → App.inFlight s = 0%nat →
       App.inFlight (App.step trim s (App.SubmitForm question)) = 1%nat
       ∧ App.dashboard (App.step trim s (App.SubmitForm question)) =
           Dashboard.handleSubmit_begin (trim question) (App.dashboard s)).
Proof.
  intros s.
  assert (Hinv : (Dashboard.isLoading (App.dashboard s) = true ∧ App.inFlight s = 1%nat)
                 ∨ (Dashboard.isLoading (App.dashboard s) = false
                    ∧ App.inFlight s = 0%nat)).
  { subst s. unfold App.run.
    induction events as [|e events IH] using rev_ind; [by right|].
    rewrite foldl_app. simpl. by apply app_step_invariant. }
  split_and!.
  - destruct Hinv as [[_ ->]|[_ ->]]; lia.
  - destruct Hinv as [[-> ->]|[-> ->]]; done.
  - intros question Hblank. simpl. unfold QueryInput.handleSubmit.
    by rewrite Hblank.
  - intros question Hloading. simpl. unfold QueryInput.handleSubmit.
    rewrite Hloading. by destruct (trim question).
  - intros question Hq Hn. destruct Hinv as [[_ Hone]|[Hl _]]; [congruence|].
    simpl. unfold QueryInput.handleSubmit. rewrite Hl, Hn.
    by destruct (trim question).
Qed.

End app.

(** ** StepLogger *)

Section step_logger.
Import Js Dashboard.

(** X15. The step log is hidden only when there are no steps and nothing is
    loading. When shown, it lists the steps in their order, each with its
    position as a label of at least two digits, and the processing row is
    there exactly while loading. On the dashboard: nothing is shown at the
    start; a submit replaces the log by the single sending line with the
    processing row; a failure adds the error line after the lines already
    shown and removes the processing row. *)
Theorem step_log_follows_dashboard :
  (∀ steps isLoading,
     StepLogger.StepLogger steps isLoading = None ↔ steps = [] ∧ isLoading = false)
  ∧ (∀ steps isLoading v, StepLogger.StepLogger steps isLoading = Some v →
       (StepLogger.rows v).*2 = steps
       ∧ (StepLogger.rows v).*1 = StepLogger.rowLabel <$> seq 0 (length steps)
       ∧ StepLogger.processing v = isLoading)
  ∧ StepLogger.rowLabel <$> [0; 8; 9; 99]%nat = ["01"; "09"; "10"; "100"]
  ∧ StepLogger.mounted initial = None
  ∧ (∀ s question,
       StepLogger.mounted (step s (Submit question)) =
         Some {| StepLogger.rows := [("01", "🚀 Sending question to InsightAI...")];
                 StepLogger.processing := true |})
  ∧ (∀ s message, ∃ v,
       StepLogger.mounted (step s (Rejected message)) = Some v
       ∧ (StepLogger.rows v).*2 =
           steps s ++ ["❌ Error: " +:+ default "An error occurred" message]
       ∧ StepLogger.processing v = false).
Proof.
  assert (Hrows : ∀ (steps : list string),
            (imap (λ index step, (StepLogger.rowLabel index, step)) steps).*2 = steps
            ∧ (imap (λ index step, (StepLogger.rowLabel index, step)) steps).*1 =
                StepLogger.rowLabel <$> seq 0 (length steps)).
  { intros steps. split; apply list_eq; intros i;
      rewrite !list_lookup_fmap, list_lookup_imap.
    - by destruct (steps !! i).
    - destruct (steps !! i) as [step|] eqn:Hi; simpl.
      + by rewrite lookup_seq_lt by by eapply lookup_lt_Some.
      + by rewrite lookup_seq_ge by by apply lookup_ge_None. }
  split_and!.
  - intros steps isLoading. unfold StepLogger.StepLogger.
    destruct steps, isLoading; simpl; split; try done; by intros [? ?].
  - intros steps isLoading v. unfold StepLogger.StepLogger.
    destruct (_ && _); [done|]. intros [= <-]. simpl.
    destruct (Hrows steps). done.
  - by vm_compute.
  - done.
  - intros s question. by vm_compute.
  - intros s message. unfold StepLogger.mounted, StepLogger.StepLogger. simpl.
    destruct (bool_decide _) eqn:Hlen.
    + apply bool_decide_eq_true in Hlen. rewrite length_app in Hlen. simpl in Hlen. lia.
    + simpl. eexists. split; [done|]. simpl. by destruct (Hrows (steps s ++
        ["❌ Error: " +:+ default "An error occurred" message])).
Qed.

End step_logger.

(** ** Tables and display names *)

Section tables_more.
Import Js Api JsText.
Context {rt : JsRuntime}.

Lemma grid_rectangular {A B C : Type} (cell : A → B → C)
    (columns : list B) (data : list A) :
  length ((λ row, cell row <$> columns) <$> data) = length data
  ∧ Forall (λ cells, length cells = length columns)
      ((λ row, cell row <$> columns) <$> data).
Proof.
  split; [apply length_fmap|].
  apply Forall_fmap, Forall_forall. intros row _. simpl. apply length_fmap.
Qed.

(** X16. Both table views are rectangular on any data, however ragged the
    records: there is one body row per record, and every body row has exactly
    one cell per column; the data table has one header per column. With no
    records neither view is a table. *)
Theorem tables_are_rectangular (data : list Obj) :
  (∀ columns body, ChartRenderer.renderTable data = ChartRenderer.Table columns body →
     length body = length data
     ∧ Forall (λ cells, length cells = length columns) body)
  ∧ (∀ columns headers body,
       DataTable.DataTable (Some data) = DataTable.Table columns headers body →
       length body = length data
       ∧ length headers = length columns
       ∧ Forall (λ cells, length cells = length columns) body)
  ∧ (data = [] ↔ ChartRenderer.renderTable data = ChartRenderer.NoData)
  ∧ (data = [] ↔ DataTable.DataTable (Some data) = DataTable.NoData).
Proof.
  destruct data as [|first rest]; [by split_and!; try done; split|].
  split_and!; try (split; done).
  - intros columns body [= <- <-].
    exact (grid_rectangular _ (Object_keys first) (first :: rest)).
  - intros columns headers body [= <- <- <-].
    destruct (grid_rectangular (λ row col, DataTable.formatValue (get row col))
                (Object_keys first) (first :: rest)) as [Hlen Hcells].
    split_and!; [exact Hlen|apply length_fmap|exact Hcells].
Qed.

Lemma replace_underscores_length (s : string) :
  String.length (replace_underscores s) = String.length s.
Proof. induction s as [|c s IH]; simpl; by rewrite ?IH. Qed.

Lemma replace_underscores_clean (s : string) :
  includes "_" (replace_underscores s) = false.
Proof.
  induction s as [|c s IH]; [done|].
  change (replace_underscores (String c s)) with
    (String (if Ascii.eqb c "_"%char then " "%char else c) (replace_underscores s)).
  destruct (Ascii.eqb c "_"%char) eqn:Hc.
  - simpl. exact IH.
  - cbn [includes String.prefix].
    destruct (ascii_dec "_"%char c) as [<-|Hne]; [by rewrite Ascii.eqb_refl in Hc|].
    exact IH.
Qed.

Lemma replace_spaces_underscores (s : string) :
  includes " " s = false → replace_spaces (replace_underscores s) = s.
Proof.
  induction s as [|c s IH]; [done|].
  cbn [includes String.prefix].
  destruct (ascii_dec " "%char c) as [<-|Hne]; [by destruct s|].
  intros Hs. simpl. rewrite (IH Hs).
  destruct (Ascii.eqb c "_"%char) eqn:Hc.
  - apply Ascii.eqb_eq in Hc as ->. done.
  - destruct (Ascii.eqb c " "%char) eqn:Hc'; [|done].
    apply Ascii.eqb_eq in Hc'. congruence.
Qed.

Lemma replace_spaces_has_no_space (s : string) : includes " " (replace_spaces s) = false.
Proof.
  induction s as [|c s IH]; [done|].
  change (replace_spaces (String c s)) with
    (String (if Ascii.eqb c " "%char then "_"%char else c) (replace_spaces s)).
  destruct (Ascii.eqb c " "%char) eqn:Hc.
  - simpl. exact IH.
  - cbn [includes String.prefix].
    destruct (ascii_dec " "%char c) as [<-|Hne]; [by rewrite Ascii.eqb_refl in Hc|].
    exact IH.
Qed.

(** X17. A display name (series names, table headers) is its key with every
    underscore turned into a space: it has the key's length, contains no
    underscore, and turning its spaces back into underscores gives the key
    again exactly when the key has no space of its own. *)
Theorem displayName_round_trip (key : string) :
  String.length (replace_underscores key) = String.length key
  ∧ includes "_" (replace_underscores key) = false
  ∧ replace_underscores (replace_underscores key) = replace_underscores key
  ∧ (replace_spaces (replace_underscores key) = key ↔ includes " " key = false).
Proof.
  split_and!.
  - apply replace_underscores_length.
  - apply replace_underscores_clean.
  - induction key as [|c key IH]; [done|]. simpl. rewrite IH.
    by destruct (Ascii.eqb c "_"%char) eqn:Hc; [|rewrite Hc].
  - split; [|apply replace_spaces_underscores].
    intros <-. apply replace_spaces_has_no_space.
Qed.

End tables_more.

(** ** streamAnalysis *)

Section stream.
Import Api Stream.

Lemma stream_closed_stays (src : Source) (events : list SourceEvent) :
  closed src = true → run src events = src.
Proof.
  intros Hclosed. induction events as [|e events IH]; [done|].
  change (run src (e :: events)) with (run (dispatch src e) events).
  assert (dispatch src e = src) as -> by (unfold dispatch; by rewrite Hclosed).
  exact IH.
Qed.

Lemma stream_progress (src : Source) (events : list SourceEvent) :
  closed src = false → Forall (λ e, terminal e = false) events →
  run src events =
    {| closed := false; calls := calls src ++ (events ≫= progressCalls) |}.
Proof.
  intros Hopen Hall. revert src Hopen.
  induction Hall as [|e events He _ IH]; intros src Hopen.
  - simpl. rewrite app_nil_r. by destruct src; simplify_eq/=.
  - change (run src (e :: events)) with (run (dispatch src e) events).
    assert (Hstep : dispatch src e =
              {| closed := false; calls := calls src ++ progressCalls e |}).
    { unfold dispatch. rewrite Hopen.
      destruct e as [[[data|data|data|]|]|]; simplify_eq/=;
        rewrite ?app_nil_r; by destruct src; simplify_eq/=. }
    rewrite Hstep, IH by done. simpl. by rewrite <- app_assoc.
Qed.

Lemma stream_terminal (src : Source) (e : SourceEvent) :
  closed src = false → terminal e = true →
  dispatch src e = {| closed := true; calls := calls src ++ terminalCall e |}.
Proof.
  intros Hopen He. unfold dispatch. rewrite Hopen.
  by destruct e as [[[data|data|data|]|]|].
Qed.

Lemma first_terminal (events : list SourceEvent) :
  Forall (λ e, terminal e = false) events
  ∨ ∃ pre t post, events = pre ++ t :: post
      ∧ Forall (λ e, terminal e = false) pre ∧ terminal t = true.
Proof.
  induction events as [|e events IH]; [by left|].
  destruct (terminal e) eqn:He.
  - right. exists [], e, events. by split_and!.
  - destruct IH as [Hall|(pre & t & post & -> & Hpre & Ht)].
    + left. by constructor.
    + right. exists (e :: pre), t, post. split_and!; [done| |done]. by constructor.
Qed.

Lemma progressCalls_not_terminal (events : list SourceEvent) :
  filter (λ c, isTerminalCall c = true) (events ≫= progressCalls) = [].
Proof.
  induction events as [|e events IH]; [done|].
  rewrite bind_cons, filter_app, IH, app_nil_r.
  by destruct e as [[[data|data|data|]|]|].
Qed.

Lemma stream_split (pre post : list SourceEvent) (t : SourceEvent) :
  Forall (λ e, terminal e = false) pre → terminal t = true →
  run opened (pre ++ t :: post) =
    {| closed := true; calls := (pre ≫= progressCalls) ++ terminalCall t |}.
Proof.
  intros Hpre Ht. unfold run. rewrite foldl_app. fold (run opened pre).
  rewrite (stream_progress opened pre eq_refl Hpre). simpl.
  rewrite stream_terminal by done. by apply stream_closed_stays.
Qed.

(** X18. The stream handler passes on the steps in the order they arrive and
    stops at the first result, error or connection failure: that event makes
    exactly one [onResult] or [onError] call and closes the source, and
    nothing that follows reaches the callbacks. A message that cannot be
    read is logged and does not stop the stream; a message of an unknown
    type is ignored. So a stream never makes more than one terminal call,
    and a terminal call is always the last call. *)
Theorem stream_stops_at_first_outcome (events : list SourceEvent) :
  let src := run opened events in
  (Forall (λ e, terminal e = false) events →
     src = {| closed := false; calls := events ≫= progressCalls |})
  ∧ (∀ pre t post, events = pre ++ t :: post →
       Forall (λ e, terminal e = false) pre → terminal t = true →
       src = {| closed := true; calls := (pre ≫= progressCalls) ++ terminalCall t |})
  ∧ (length (filter (λ c, isTerminalCall c = true) (calls src)) ≤ 1)%nat
  ∧ (closed src = true ↔ ∃ c, last (calls src) = Some c ∧ isTerminalCall c = true)
  ∧ (∀ more, closed src = true → run src more = src).
Proof.
  intros src. split_and!.
  - intros Hall. subst src. by rewrite (stream_progress opened events eq_refl Hall).
  - intros pre t post -> Hpre Ht. by apply stream_split.
  - destruct (first_terminal events) as [Hall|(pre & t & post & Heq & Hpre & Ht)].
    + subst src. rewrite (stream_progress opened events eq_refl Hall). simpl.
      rewrite progressCalls_not_terminal. simpl. lia.
    + subst src. rewrite Heq, stream_split by done. simpl.
      rewrite filter_app, progressCalls_not_terminal. simpl.
      by destruct t as [[[data|data|data|]|]|].
  - destruct (first_terminal events) as [Hall|(pre & t & post & Heq & Hpre & Ht)].
    + subst src. rewrite (stream_progress opened events eq_refl Hall). simpl.
      split; [done|]. intros (c & Hlast & Hc).
      apply last_Some_elem_of in Hlast.
      assert (Hin : c ∈ filter (λ c, isTerminalCall c = true)
                          (events ≫= progressCalls))
        by by apply list_elem_of_filter.
      rewrite progressCalls_not_terminal in Hin. by apply elem_of_nil in Hin.
    + subst src. rewrite Heq, stream_split by done. simpl.
      split; [|done]. intros _.
      destruct t as [[[data|data|data|]|]|]; try done; simpl;
        eexists; by rewrite last_snoc.
  - intros more Hclosed. by apply stream_closed_stays.
Qed.

End stream.

(** ** ChartRenderer: payloads and outcomes *)

Section payloads.
Import Js Api ChartRenderer.
Context {rt : JsRuntime}.

Lemma renderChart_ignores_data (config : VisualizationConfig) (d : Data)
    (rows : list Obj) :
  renderChart
    {| type := type config; title := title config; xKey := xKey config;
       yKey := yKey config; data := d; message := message config;
       recommended_charts := recommended_charts config |} rows =
  renderChart config rows.
Proof. by destruct config. Qed.

(** X19. A payload given as a JSON string that parses to an array of
    records renders exactly as that array given as [data], and a string that
    parses to a single record renders as the one-element array of that
    record. A value given directly as [data] that is neither a string nor an
    array (a single record, say) is not wrapped: it renders as no rows. *)
Theorem string_payload_renders_as_parsed (config : VisualizationConfig) (s : string) :
  s ≠ "" → data config = DataString s →
  let with_data d :=
    {| type := type config; title := title config; xKey := xKey config;
       yKey := yKey config; data := d; message := message config;
       recommended_charts := recommended_charts config |} in
  (∀ rows, JSON_parse s = Some (PArray rows) →
     ChartRenderer (Some config) = ChartRenderer (Some (with_data (DataArray rows))))
  ∧ (∀ row, JSON_parse s = Some (PRecord row) →
       ChartRenderer (Some config) = ChartRenderer (Some (with_data (DataArray [row]))))
  ∧ ChartRenderer (Some (with_data DataOther)) =
      ChartRenderer (Some (with_data (DataArray []))).
Proof.
  intros Hs Hdata with_data. subst with_data. unfold ChartRenderer.
  rewrite Hdata. simpl. destruct s as [|c s]; [done|].
  split_and!; [intros rows Hparse|intros row Hparse|]; rewrite ?Hparse;
    case_decide; try done; by rewrite !renderChart_ignores_data.
Qed.

(** X20. The renderer's outcomes, by payload. It renders nothing exactly
    when there is no config, no data, or the data is the empty string.
    Otherwise it shows the error view exactly when the type is [error], and
    the raw text exactly when the type is not [error] and the data is a
    string that does not parse. When the type is not [error] and the data is
    an array of records, or a string that parses to an array of records or
    to a single record, it shows the chart card of those rows. *)
Theorem renderer_outcomes (config : VisualizationConfig) :
  let absent := data config = DataMissing ∨ data config = DataString "" in
  (ChartRenderer None = Nothing)
  ∧ (ChartRenderer (Some config) = Nothing ↔ absent)
  ∧ (ChartRenderer (Some config) = ErrorCard (title config) (message config) ↔
       ¬ absent ∧ type config = error)
  ∧ ((∃ text, ChartRenderer (Some config) = RawText (title config) text) ↔
       ¬ absent ∧ type config ≠ error
       ∧ ∃ s, data config = DataString s ∧ JSON_parse s = None)
  ∧ (∀ text, ChartRenderer (Some config) = RawText (title config) text →
       data config = DataString text)
  ∧ (∀ rows, type config ≠ error →
       data config = DataArray rows
       ∨ (∃ s, s ≠ "" ∧ data config = DataString s
               ∧ (JSON_parse s = Some (PArray rows)
                  ∨ ∃ row, JSON_parse s = Some (PRecord row) ∧ rows = [row])) →
       ChartRenderer (Some config) = ChartCard (title config) (renderChart config rows)).
Proof.
  intros absent. subst absent. unfold ChartRenderer.
  split_and!; [done| | | | |].
  - destruct (data config) as [|[|c s]|rows|]; try (split; [done|by intros [?|?]]);
      try (split; [by intros _; auto|done]).
    + case_decide; [split; [done|by intros [?|?]]|].
      destruct (JSON_parse _) as [[rows|row|]|]; split; done || by intros [?|?].
    + case_decide; split; done || by intros [?|?].
    + case_decide; split; done || by intros [?|?].
  - destruct (data config) as [|[|c s]|rows|].
    + split; [done|]. intros [Hn _]. destruct Hn. by left.
    + split; [done|]. intros [Hn _]. destruct Hn. by right.
    + case_decide as Herr.
      * split; [|done]. intros _. split; [by intros [?|?]|done].
      * destruct (JSON_parse _) as [[rows|row|]|]; split; done || by intros [_ ?].
    + case_decide as Herr.
      * split; [|done]. intros _. split; [by intros [?|?]|done].
      * split; done || by intros [_ ?].
    + case_decide as Herr.
      * split; [|done]. intros _. split; [by intros [?|?]|done].
      * split; done || by intros [_ ?].
  - destruct (data config) as [|[|c s]|rows|].
    + split; [by intros [? ?]|]. intros [Hn _]. destruct Hn. by left.
    + split; [by intros [? ?]|]. intros [Hn _]. destruct Hn. by right.
    + case_decide as Herr.
      * split; [by intros [? ?]|]. by intros (_ & ? & _).
      * destruct (JSON_parse (String c s)) as [[rows|row|]|] eqn:Hparse.
        -- split; [by intros [? ?]|]. intros (_ & _ & s' & [= <-] & Hnone). congruence.
        -- split; [by intros [? ?]|]. intros (_ & _ & s' & [= <-] & Hnone). congruence.
        -- split; [by intros [? ?]|]. intros (_ & _ & s' & [= <-] & Hnone). congruence.
        -- split; [|by eauto]. intros _. split_and!; [by intros [?|?]|done|by eauto].
    + case_decide as Herr.
      * split; [by intros [? ?]|]. by intros (_ & ? & _).
      * split; [by intros [? ?]|]. by intros (_ & _ & s' & ? & _).
    + case_decide as Herr.
      * split; [by intros [? ?]|]. by intros (_ & ? & _).
      * split; [by intros [? ?]|]. by intros (_ & _ & s' & ? & _).
  - intros text. destruct (data config) as [|[|c s]|rows|]; try done.
    + case_decide; [done|].
      destruct (JSON_parse _) as [[rows|row|]|]; try done. by intros [= <-].
    + by case_decide.
    + by case_decide.
  - intros rows Herr [->|(s & Hs & -> & Hparse)].
    + by rewrite decide_False.
    + destruct s as [|c s]; [done|]. rewrite decide_False by done.
      by destruct Hparse as [-> | (row & -> & ->)].
Qed.

End payloads.

(** A single record as a JSON string renders as the array of that record. *)
Lemma string_payload_renders_as_parsed_witness :
  @ChartRenderer.ChartRenderer Sample.runtime
    (Some (Examples.config_of Api.table (Some "cat") (Some (Api.YKeyOne "x"))
             (Api.DataString Sample.record_json) None)) =
  ChartRenderer.ChartCard "Sales"
    (ChartRenderer.Table ["cat"; "x"; "y"] [["A"; "10"; "30"]]).
Proof.
  rewrite (proj1 (proj2 (@string_payload_renders_as_parsed Sample.runtime
                  (Examples.config_of Api.table (Some "cat")
                     (Some (Api.YKeyOne "x")) (Api.DataString Sample.record_json) None)
                  Sample.record_json ltac:(discriminate) eq_refl))
             Sample.record_value eq_refl).
  reflexivity.
Defined.

(** ** ChartRenderer: the tooltip of the composed chart *)

Section tooltip.
Import Js Api JsText ComposedTooltip.
Context {rt : JsRuntime}.



End tooltip.

(** ** QueryInput: the button and the handler *)

Section query_input.
Context (trim : string → string).

(** X22. The submit button and the submit handler agree: the button is
    disabled exactly when the handler would drop the submit, that is while
    loading or when the trimmed question is empty; and what the handler
    passes on is the trimmed question, never an empty one. *)
Theorem submit_button_matches_handler (question : string) (isLoading : bool) :
  (QueryInput.disabled trim question isLoading = true ↔
     QueryInput.handleSubmit trim question isLoading = None)
  ∧ (QueryInput.disabled trim question isLoading = true ↔
       isLoading = true ∨ trim question = "")
  ∧ (∀ q, QueryInput.handleSubmit trim question isLoading = Some q →
       q = trim question ∧ q ≠ "" ∧ isLoading = false).
Proof.
  unfold QueryInput.disabled, QueryInput.handleSubmit.
  destruct isLoading, (trim question) as [|c q'] eqn:Htrim; simpl;
    split_and!; try (split; intros; by auto); try done;
    try (intros q [= <-]; done); intros; intuition congruence.
Qed.

End query_input.
